(** * FLASHPLATE: the plate watchlist and the capture loop of [App.tsx]

    A shallow embedding of the React component [App] (its plate store, the
    normalizer, [processFrame] and the alert timers) and of
    [detectPlatesFromImage] from [geminiService.ts], with the properties the
    specification states about them.

    Strings are JavaScript strings: sequences of UTF-16 code units.  The
    component's [useState] cells, the pending timeouts, the pending detector
    promise and the observable effects (alerts, console errors, audio, calls
    to the detection service) make up one record, [World]; every handler is a
    function on it.  An event runs to completion and React re-renders before
    the next event is delivered, so that a handler reads the state cells of
    the latest render; what a closure captured before an [await] is kept with
    the pending promise.  The copy of the store in [localStorage] is left
    out: a session starts from the empty store. *)

From Stdlib Require Import List NArith Bool Arith Lia String Ascii.
Import ListNotations.

#[local] Open Scope N_scope.
#[local] Set Warnings "-register-all".

(** ** JavaScript strings *)

(** A string is the list of its UTF-16 code units. *)
Definition jsstring : Type := list N.

(** A literal of the source, written with ASCII characters. *)
Definition js (s : string) : jsstring :=
  map N_of_ascii (list_ascii_of_string s).

(** [a === b] on strings. *)
Fixpoint str_eqb (a b : jsstring) : bool :=
  match a, b with
  | [], [] => true
  | x :: a', y :: b' => (x =? y) && str_eqb a' b'
  | _, _ => false
  end.

Definition is_high_surrogate (c : N) : bool := (0xD800 <=? c) && (c <=? 0xDBFF).
Definition is_low_surrogate (c : N) : bool := (0xDC00 <=? c) && (c <=? 0xDFFF).

(** The code point of a surrogate pair. *)
Definition codePointOfPair (hi lo : N) : N :=
  0x10000 + (hi - 0xD800) * 0x400 + (lo - 0xDC00).

Definition is_ascii_lower (c : N) : bool := (97 <=? c) && (c <=? 122).

(** The character class [[A-Z0-9]] of the normalizer's regular expression. *)
Definition is_AZ09 (c : N) : bool :=
  ((65 <=? c) && (c <=? 90)) || ((48 <=? c) && (c <=? 57)).

(** White space and line terminators, as [String.prototype.trim] removes them. *)
Definition is_js_space (c : N) : bool :=
  existsb (N.eqb c)
    [9; 10; 11; 12; 13; 32; 0xA0; 0x1680; 0x2028; 0x2029; 0x202F; 0x205F;
     0x3000; 0xFEFF]
  || ((0x2000 <=? c) && (c <=? 0x200A)).

Fixpoint trimStart (s : jsstring) : jsstring :=
  match s with
  | [] => []
  | c :: s' => if is_js_space c then trimStart s' else s
  end.

Definition trim (s : jsstring) : jsstring :=
  rev (trimStart (rev (trimStart s))).

(** [s.split(',')]: the pieces between the commas. *)
Fixpoint split_comma_aux (cur : jsstring) (s : jsstring) : list jsstring :=
  match s with
  | [] => [rev cur]
  | c :: s' =>
      if c =? 44 then rev cur :: split_comma_aux [] s'
      else split_comma_aux (c :: cur) s'
  end.

Definition split_comma (s : jsstring) : list jsstring := split_comma_aux [] s.

(** Upper case of an ASCII code unit. *)
Definition asciiUpper (c : N) : N := if is_ascii_lower c then c - 32 else c.

(** The string holds ASCII characters only. *)
Definition isAscii (s : jsstring) : bool := forallb (fun c => c <? 128) s.

(** ** Values of [JSON.parse] *)

Inductive Json : Type :=
| JNull
| JBool (b : bool)
| JNumber
| JString (s : jsstring)
| JArray (items : list Json)
| JObject (fields : list (jsstring * Json)).

(** [o.key] on a parsed object, whose own properties [fields] lists once
    each: [None] is [undefined]. *)
Fixpoint getField (key : jsstring) (fields : list (jsstring * Json)) : option Json :=
  match fields with
  | [] => None
  | (k, v) :: rest => if str_eqb k key then Some v else getField key rest
  end.

(** ** The data of [types.ts] and of the component *)

Record Plate : Type := mkPlate {
  id : jsstring;
  number : jsstring;
  createdAt : N
}.

Inductive AppMode : Type := LIST | FLASH.

Definition mode_eqb (a b : AppMode) : bool :=
  match a, b with
  | LIST, LIST | FLASH, FLASH => true
  | _, _ => false
  end.

Record LogEntry : Type := mkLogEntry {
  log_number : jsstring;
  log_time : jsstring;
  log_match : bool
}.

(** What the user, the console, the loudspeaker and the network see. *)
Inductive Effect : Type :=
| Alert (msg : string)
| ConsoleError
| AudioPlay
| GenerateContent (data : jsstring).

(** A callback registered with [setTimeout]: every one of the component is
    [() => setDetectedRecently(null)]. *)
Record Timeout : Type := mkTimeout {
  scheduledAt : N;
  delay : N
}.

(** How the [generateContent] promise settles: it rejects, or it resolves with
    a response whose [text] is a string or [undefined]. *)
Inductive ServiceOutcome : Type :=
| Rejected
| Response (text : option jsstring).

(** An [async] call: already resolved, or waiting for the detection service
    with the rest of the function as continuation. *)
Inductive Async (A : Type) : Type :=
| Resolved (a : A)
| Awaiting (data : jsstring) (k : ServiceOutcome -> A).
Arguments Resolved {A} a.
Arguments Awaiting {A} data k.

(** How a block of statements completes. *)
Inductive Completion (A : Type) : Type :=
| Normal (a : A)
| Throw.
Arguments Normal {A} a.
Arguments Throw {A}.

(** A value together with the effects that producing it had. *)
Definition Logged (A : Type) : Type := (list Effect * A)%type.

(** The [processFrame] call suspended at its [await]: the [plates] its closure
    captured and the detector's continuation. *)
Record Inflight : Type := mkInflight {
  closure_plates : list Plate;
  continuation : ServiceOutcome -> Logged (list Json)
}.

(** The refs [processFrame] reads. *)
Record Video : Type := mkVideo { readyState : N }.
Definition HAVE_ENOUGH_DATA : N := 4.

Record Canvas : Type := mkCanvas {
  context2d : bool;      (* getContext('2d') is not null *)
  toDataURL : jsstring   (* toDataURL('image/jpeg', 0.6) after drawImage *)
}.

Record Dom : Type := mkDom {
  videoRef : option Video;
  canvasRef : option Canvas
}.

Record World : Type := mkWorld {
  plates : list Plate;
  mode : AppMode;
  newPlate : jsstring;
  isProcessing : bool;
  detectedRecently : option jsstring;
  sessionLog : list LogEntry;
  clock : N;                  (* Date.now(), in milliseconds *)
  timeouts : list Timeout;
  inflight : list Inflight;
  trace : list Effect
}.

Definition initial : World :=
  mkWorld [] LIST [] false None [] 0 [] [] [].

Definition setPlates (v : list Plate) (w : World) : World :=
  mkWorld v (mode w) (newPlate w) (isProcessing w) (detectedRecently w)
    (sessionLog w) (clock w) (timeouts w) (inflight w) (trace w).

Definition setMode (v : AppMode) (w : World) : World :=
  mkWorld (plates w) v (newPlate w) (isProcessing w) (detectedRecently w)
    (sessionLog w) (clock w) (timeouts w) (inflight w) (trace w).

Definition setNewPlate (v : jsstring) (w : World) : World :=
  mkWorld (plates w) (mode w) v (isProcessing w) (detectedRecently w)
    (sessionLog w) (clock w) (timeouts w) (inflight w) (trace w).

Definition setIsProcessing (v : bool) (w : World) : World :=
  mkWorld (plates w) (mode w) (newPlate w) v (detectedRecently w)
    (sessionLog w) (clock w) (timeouts w) (inflight w) (trace w).

Definition setDetectedRecently (v : option jsstring) (w : World) : World :=
  mkWorld (plates w) (mode w) (newPlate w) (isProcessing w) v
    (sessionLog w) (clock w) (timeouts w) (inflight w) (trace w).

(** [setSessionLog(prev => f(prev))]. *)
Definition setSessionLog (f : list LogEntry -> list LogEntry) (w : World) : World :=
  mkWorld (plates w) (mode w) (newPlate w) (isProcessing w) (detectedRecently w)
    (f (sessionLog w)) (clock w) (timeouts w) (inflight w) (trace w).

Definition setClock (v : N) (w : World) : World :=
  mkWorld (plates w) (mode w) (newPlate w) (isProcessing w) (detectedRecently w)
    (sessionLog w) v (timeouts w) (inflight w) (trace w).

Definition setTimeouts (v : list Timeout) (w : World) : World :=
  mkWorld (plates w) (mode w) (newPlate w) (isProcessing w) (detectedRecently w)
    (sessionLog w) (clock w) v (inflight w) (trace w).

Definition setInflight (v : list Inflight) (w : World) : World :=
  mkWorld (plates w) (mode w) (newPlate w) (isProcessing w) (detectedRecently w)
    (sessionLog w) (clock w) (timeouts w) v (trace w).

Definition emit (e : Effect) (w : World) : World :=
  mkWorld (plates w) (mode w) (newPlate w) (isProcessing w) (detectedRecently w)
    (sessionLog w) (clock w) (timeouts w) (inflight w) (trace w ++ [e]).

(** [setTimeout(cb, ms)]. *)
Definition setTimeout (ms : N) (w : World) : World :=
  setTimeouts (timeouts w ++ [mkTimeout (clock w) ms]) w.

(** The JSON text of an answer of the service, [{"plates":["s1",...,"sn"]}],
    for strings without quotes, backslashes and control characters. *)
Definition quoted (s : jsstring) : jsstring := [34] ++ s ++ [34].

Fixpoint joinQuoted (ss : list jsstring) : jsstring :=
  match ss with
  | [] => []
  | [s] => quoted s
  | s :: rest => quoted s ++ [44] ++ joinQuoted rest
  end.

Definition platesJson (ss : list jsstring) : jsstring :=
  js "{" ++ quoted (js "plates") ++ js ":[" ++ joinQuoted ss ++ js "]}".

(** A character that stands for itself inside a JSON string literal. *)
Definition isPlainChar (c : N) : bool :=
  negb ((c <? 32) || (c =? 34) || (c =? 92)).

(** Reads a string literal up to its closing quote: the string and what
    follows it. *)
Fixpoint readQuotedBody (acc s : jsstring) : option (jsstring * jsstring) :=
  match s with
  | [] => None
  | c :: s' =>
      if c =? 34 then Some (rev acc, s')
      else if isPlainChar c then readQuotedBody (c :: acc) s'
      else None
  end.

Definition readQuoted (s : jsstring) : option (jsstring * jsstring) :=
  match s with
  | c :: s' => if c =? 34 then readQuotedBody [] s' else None
  | [] => None
  end.

(** Reads string literals separated by commas up to the closing bracket. *)
Fixpoint readItems (fuel : nat) (s : jsstring) : option (list Json * jsstring) :=
  match fuel with
  | O => None
  | S fuel' =>
      match readQuoted s with
      | Some (item, c :: rest) =>
          if c =? 93 then Some ([JString item], rest)
          else if c =? 44 then
            match readItems fuel' rest with
            | Some (items, rest') => Some (JString item :: items, rest')
            | None => None
            end
          else None
      | _ => None
      end
  end.

(** Reads what follows an opening bracket. *)
Definition readArray (s : jsstring) : option (list Json * jsstring) :=
  match s with
  | c :: s' => if c =? 93 then Some ([], s') else readItems (List.length s) s
  | [] => None
  end.

(** [s] without the prefix [pre], when it starts with it. *)
Fixpoint stripPrefix (pre s : jsstring) : option jsstring :=
  match pre, s with
  | [], _ => Some s
  | c :: pre', d :: s' => if c =? d then stripPrefix pre' s' else None
  | _ :: _, [] => None
  end.

(** Stand-ins for the platform functions, for running the model on plain
    ASCII data: a case mapping that leaves every other character alone; a
    parser for the answers of the service, which reads a text of the form
    [{"plates":["s1",...,"sn"]}] as [JSON.parse] does and throws on every
    other text, as [JSON.parse] does on every text that is not JSON (the
    runs below hand it no other text); and a clock that prints the time of
    day. *)
Definition ascii_only_upper (cp : N) : list N := [cp].

Definition parse_plates_json (text : jsstring) : option Json :=
  match stripPrefix (js "{" ++ quoted (js "plates") ++ js ":[") text with
  | Some s =>
      match readArray s with
      | Some (items, rest) =>
          if str_eqb rest (js "}")
          then Some (JObject [(js "plates", JArray items)])
          else None
      | None => None
      end
  | None => None
  end.

Definition two_digits (n : N) : jsstring := [48 + n / 10; 48 + n mod 10].

Definition utc_time_of_day (ms : N) : jsstring :=
  let s := (ms / 1000) mod 86400 in
  two_digits (s / 3600) ++ [58] ++ two_digits ((s / 60) mod 60) ++ [58]
    ++ two_digits (s mod 60).

(** ** Events and frames *)

Inductive Event : Type :=
| Tick (dom : Dom)               (* the interval calls processFrame *)
| Settle (o : ServiceOutcome)    (* the oldest pending generateContent settles *)
| TimeoutFires (i : nat)         (* the i-th pending timeout is due and runs *)
| Elapse (ms : N)                (* time passes *)
| TypePlate (s : jsstring)       (* onChange of the input field *)
| ClickAdd (uuid : jsstring)
| ClickRemove (id0 : jsstring)
| SwitchMode (m : AppMode).

(** The list without its [i]-th element. *)
Fixpoint dropNth {A : Type} (i : nat) (l : list A) : list A :=
  match i, l with
  | _, [] => []
  | O, _ :: l' => l'
  | S i', x :: l' => x :: dropNth i' l'
  end.

(** A frame from which [processFrame] can call the detector with [data]. *)
Definition frameWith (data : jsstring) : Dom :=
  mkDom (Some (mkVideo HAVE_ENOUGH_DATA))
    (Some (mkCanvas true (js "data:image/jpeg;base64," ++ data))).

(** A frame whose canvas gives no 2D context. *)
Definition frameWithoutContext : Dom :=
  mkDom (Some (mkVideo HAVE_ENOUGH_DATA)) (Some (mkCanvas false [])).

Definition isCall (e : Effect) : bool :=
  match e with GenerateContent _ => true | _ => false end.

(** The calls to the detection service that a trace records. *)
Definition calls (tr : list Effect) : list Effect := filter isCall tr.

Definition isAudioPlay (e : Effect) : bool :=
  match e with AudioPlay => true | _ => false end.

Definition audioPlays (tr : list Effect) : nat := List.length (filter isAudioPlay tr).

(** The strings at the head of a detector result: the elements that
    [forEach] reaches before one that is not a string makes it throw. *)
Fixpoint stringPrefix (detected : list Json) : list jsstring :=
  match detected with
  | JString num :: rest => num :: stringPrefix rest
  | _ => []
  end.

(** [typeof j === 'string']. *)
Definition isString (j : Json) : bool :=
  match j with JString _ => true | _ => false end.

(** Whether the match overlay is rendered, [App.tsx] lines 169 and 253: the
    camera view is, and [detectedRecently] is truthy, which the empty string
    is not. *)
Definition overlayShown (w : World) : bool :=
  negb (mode_eqb (mode w) LIST) &&
  match detectedRecently w with
  | Some (_ :: _) => true
  | _ => false
  end.

(** The time a list of events lets pass. *)
Fixpoint elapsed (evs : list Event) : N :=
  match evs with
  | [] => 0
  | Elapse ms :: evs' => ms + elapsed evs'
  | _ :: evs' => elapsed evs'
  end.

(** ** The camera, [App.tsx] lines 66-94 *)

(** A [MediaStream], by the ids of its tracks. *)
Record MediaStream : Type := mkMediaStream { getTracks : list N }.

(** What [startCamera] and [stopCamera] read and write: the video element
    behind [videoRef.current], when it is mounted, with its [srcObject];
    [streamRef.current]; and the tracks on which [stop()] was called. *)
Record Camera : Type := mkCamera {
  videoElement : option (option MediaStream);
  streamRef : option MediaStream;
  stoppedTracks : list N
}.

(** How [navigator.mediaDevices.getUserMedia] settles. *)
Inductive MediaOutcome : Type :=
| Granted (stream : MediaStream)
| Denied.

(** [startCamera] after its [await]: the rest of the [try], and the [catch]. *)
Definition afterGetUserMedia (o : MediaOutcome) (c : Camera) (w : World)
  : Camera * World :=
  match o with
  | Granted stream =>
      match videoElement c with
      | Some _ => (mkCamera (Some (Some stream)) (Some stream) (stoppedTracks c), w)
      | None => (c, w)
      end
  | Denied =>
      (c, emit (Alert "Erreur Caméra. Vérifiez les permissions.") (emit ConsoleError w))
  end.

Definition stopCamera (c : Camera) : Camera :=
  match streamRef c with
  | Some stream =>
      mkCamera (videoElement c) None (stoppedTracks c ++ getTracks stream)
  | None => c
  end.

(** ** Sample data *)

(** A store of two plates, [FLASH] mode with that store, and the payload of a
    frame: 64 letters. *)
Definition watched : list Plate :=
  [mkPlate (js "id-2") (js "CD456EF") 0; mkPlate (js "id-1") (js "AB123AA") 0].

Definition capturing : World := setMode FLASH (setPlates watched initial).

Definition payload : jsstring := repeat 65 64.

(** Two answers of the service, [{"plates":["AB-123-AA"]}] and
    [{"plates":["cd 456 ef"]}]. *)
Definition answerAB : jsstring := platesJson [js "AB-123-AA"].

Definition answerCD : jsstring := platesJson [js "cd 456 ef"].

(** A first match at time 0, a second one 3 seconds later. *)
Definition twoMatches : list Event :=
  [Tick (frameWith payload); Settle (Response (Some answerAB));
   Elapse 3000;
   Tick (frameWith payload); Settle (Response (Some answerCD))].

(** A call goes out in FLASH mode and the user leaves for the list. *)
Definition leftWhilePending : list Event :=
  [Tick (frameWith payload); SwitchMode LIST].

(** Fifteen plates, "AA00A" to "AA00O". *)
Definition fifteen : list jsstring :=
  map (fun c => js "AA00" ++ [c]) [65; 66; 67; 68; 69; 70; 71; 72; 73; 74; 75; 76; 77; 78; 79].

Section App.

(** The platform, which the repository does not define: Unicode's full
    upper-case mapping of a code point outside ASCII, given as UTF-16 code
    units; [JSON.parse], [None] when it throws; and
    [toLocaleTimeString('fr-FR', { hour12: false })] of the date at a clock
    value. *)
Variable unicodeUpper : N -> list N.
Variable JSON_parse : jsstring -> option Json.
Variable toLocaleTimeString : N -> jsstring.

(** *** The normalizer, [App.tsx] line 15 *)

Definition upperCodePoint (cp : N) : list N :=
  if is_ascii_lower cp then [cp - 32]
  else if cp <? 128 then [cp]
  else unicodeUpper cp.

(** [val.toUpperCase()]: code point by code point, a well-formed surrogate
    pair being one code point. *)
Fixpoint toUpperCase (val : jsstring) : jsstring :=
  match val with
  | [] => []
  | c :: rest =>
      match rest with
      | d :: rest' =>
          if is_high_surrogate c && is_low_surrogate d
          then unicodeUpper (codePointOfPair c d) ++ toUpperCase rest'
          else upperCodePoint c ++ toUpperCase rest
      | [] => upperCodePoint c
      end
  end.

(** [val.toUpperCase().replace(/[^A-Z0-9]/g, '')]. *)
Definition normalizePlate (val : jsstring) : jsstring :=
  filter is_AZ09 (toUpperCase val).

(** *** The watchlist store, [App.tsx] lines 43-64 *)

(** [plates.some(p => p.number === token)]. *)
Definition contains (token : jsstring) (ps : list Plate) : bool :=
  existsb (fun p => str_eqb (number p) token) ps.

(** [addPlate], with the value of [crypto.randomUUID()]. *)
Definition addPlate (uuid : jsstring) (w : World) : World :=
  let normalized := normalizePlate (newPlate w) in
  if (List.length normalized <? 4)%nat then emit (Alert "Plaque trop courte") w
  else if contains normalized (plates w) then emit (Alert "Déjà surveillé") w
  else
    let plate := mkPlate uuid normalized (clock w) in
    setNewPlate [] (setPlates (plate :: plates w) w).

Definition removePlate (id0 : jsstring) (w : World) : World :=
  setPlates (filter (fun p => negb (str_eqb (id p) id0)) (plates w)) w.

(** *** The detector, [geminiService.ts] *)

(** Lines 44-48, the rest of the [try] block once
    [await ai.models.generateContent(...)] has settled: it returns a list
    or throws. *)
Definition tryGenerateContent (o : ServiceOutcome) : Completion (list Json) :=
  match o with
  | Rejected => Throw
  | Response None => Normal []
  | Response (Some resultText) =>
      if (List.length resultText =? 0)%nat then Normal []
      else
        match JSON_parse (trim resultText) with
        | None => Throw                            (* SyntaxError *)
        | Some JNull => Throw                      (* null.plates: TypeError *)
        | Some (JObject fields) =>
            match getField (js "plates") fields with
            | Some (JArray items) => Normal items
            | _ => Normal []
            end
        | Some _ => Normal []
        end
  end.

(** Lines 44-53: the [try] with its [catch], which logs and returns []. *)
Definition afterGenerateContent (o : ServiceOutcome) : Logged (list Json) :=
  match tryGenerateContent o with
  | Normal plates => ([], plates)
  | Throw => ([ConsoleError], [])
  end.

(** [detectPlatesFromImage]; [None] is the [undefined] that
    [dataUrl.split(',')[1]] can be. *)
Definition detectPlatesFromImage (base64Image : option jsstring)
  : Async (Logged (list Json)) :=
  match base64Image with
  | None => Resolved ([], [])
  | Some img =>
      if (List.length img =? 0)%nat || (List.length img <? 50)%nat
      then Resolved ([], [])
      else Awaiting img afterGenerateContent
  end.

(** *** The capture loop, [App.tsx] lines 96-139 *)

(** The body of [detected.forEach(num => ...)] for a string [num], run with
    the [plates] of the closure. *)
Definition onDetected (ps : list Plate) (num : jsstring) (w : World) : World :=
  let norm := normalizePlate num in
  let isMatch := contains norm ps in
  let w :=
    setSessionLog
      (fun prev =>
         firstn 10 (mkLogEntry norm (toLocaleTimeString (clock w)) isMatch :: prev))
      w in
  if isMatch then
    setTimeout 5000 (setDetectedRecently (Some norm) (emit AudioPlay w))
  else w.

(** [detected.forEach(...)]: the second component tells whether the loop
    threw, which [normalizePlate] does on an element that is not a string
    ([val.toUpperCase] is not a function). *)
Fixpoint forEachDetected (ps : list Plate) (detected : list Json) (w : World)
  : World * bool :=
  match detected with
  | [] => (w, false)
  | JString num :: rest => forEachDetected ps rest (onDetected ps num w)
  | _ :: _ => (w, true)
  end.

(** Lines 115-138, after [await detectPlatesFromImage(base64)]: the rest of
    the [try], the [catch] and the [finally]. *)
Definition afterDetect (ps : list Plate) (r : Logged (list Json)) (w : World)
  : World :=
  let w := fold_left (fun acc e => emit e acc) (fst r) w in
  let (w, threw) := forEachDetected ps (snd r) w in
  let w := if threw then emit ConsoleError w else w in
  setIsProcessing false w.

(** [processFrame], up to its [await]; when the detector resolves without
    calling out, the rest runs in the same turn. *)
Definition processFrame (dom : Dom) (w : World) : World :=
  match videoRef dom, canvasRef dom with
  | Some video, Some canvas =>
      if isProcessing w || negb (mode_eqb (mode w) FLASH) then w
      else if negb (readyState video =? HAVE_ENOUGH_DATA) then w
      else
        let w := setIsProcessing true w in
        if negb (context2d canvas) then w
        else
          let base64 := nth_error (split_comma (toDataURL canvas)) 1 in
          match detectPlatesFromImage base64 with
          | Resolved r => afterDetect (plates w) r w
          | Awaiting data k =>
              emit (GenerateContent data)
                (setInflight (inflight w ++ [mkInflight (plates w) k]) w)
          end
  | _, _ => w
  end.

(** *** Events *)

(** A timeout never runs before its delay has passed. *)
Definition fireTimeout (i : nat) (w : World) : World :=
  match nth_error (timeouts w) i with
  | Some t =>
      if scheduledAt t + delay t <=? clock w
      then setDetectedRecently None (setTimeouts (dropNth i (timeouts w)) w)
      else w
  | None => w
  end.

Definition settle (o : ServiceOutcome) (w : World) : World :=
  match inflight w with
  | [] => w
  | p :: rest =>
      afterDetect (closure_plates p) (continuation p o) (setInflight rest w)
  end.

Definition step (w : World) (e : Event) : World :=
  match e with
  | Tick dom => processFrame dom w
  | Settle o => settle o w
  | TimeoutFires i => fireTimeout i w
  | Elapse ms => setClock (clock w + ms) w
  | TypePlate s => setNewPlate s w
  | ClickAdd uuid => addPlate uuid w
  | ClickRemove id0 => removePlate id0 w
  | SwitchMode m => setMode m w
  end.

Definition run (w : World) (evs : list Event) : World := fold_left step evs w.

(** *** What the specification calls the outcome of [add] *)

(** [add] failed with a ValidationError: the user got an alert and nothing
    else changed. *)
Definition validationError (before after : World) : Prop :=
  exists msg, after = emit (Alert msg) before.

(** [add] succeeded with the token [token]: a plate with the fresh id stands
    at the front of the store and the input field is empty again. *)
Definition added (uuid token : jsstring) (before after : World) : Prop :=
  after =
  setNewPlate [] (setPlates (mkPlate uuid token (clock before) :: plates before) before).

(** The data model's invariant: the numbers of the store are pairwise
    different.  Every handler keeps it. *)
Definition uniqueNumbers (w : World) : Prop := NoDup (map number (plates w)).

(** The rest of that invariant: a number holds only characters of [[A-Z0-9]]
    and at least 4 of them. *)
Definition wellFormedStore (w : World) : Prop :=
  Forall (fun p : Plate => forallb is_AZ09 (number p) = true /\
                           (4 <= List.length (number p))%nat) (plates w).

(** The entry [onDetected] logs for [num] at clock value [t]. *)
Definition logEntryOf (ps : list Plate) (t : N) (num : jsstring) : LogEntry :=
  mkLogEntry (normalizePlate num) (toLocaleTimeString t)
    (contains (normalizePlate num) ps).

(** The cells a detection never writes. *)
Definition sameControl (w w' : World) : Prop :=
  plates w' = plates w /\ mode w' = mode w /\ newPlate w' = newPlate w /\
  isProcessing w' = isProcessing w /\ clock w' = clock w /\
  inflight w' = inflight w.

(** At most one call is pending, and while one is the flag is set. *)
Definition singleFlight (w : World) : Prop :=
  inflight w = [] \/ (isProcessing w = true /\ List.length (inflight w) = 1%nat).

(** The flag is set, nothing is pending, and no call was ever made. *)
Definition stuck (w : World) : Prop :=
  isProcessing w = true /\ inflight w = [] /\ calls (trace w) = [].

(** The entries an event adds to the session log, newest first. *)
Definition loggedBy (w : World) (e : Event) : list LogEntry :=
  match e, inflight w with
  | Settle o, p :: _ =>
      rev (map (logEntryOf (closure_plates p) (clock w))
             (stringPrefix (snd (continuation p o))))
  | _, _ => []
  end.

(** The entries a run adds to the session log, newest first. *)
Fixpoint loggedRun (w : World) (evs : list Event) : list LogEntry :=
  match evs with
  | [] => []
  | e :: evs' => loggedRun (step w e) evs' ++ loggedBy w e
  end.

(** An event that brings no match: anything but a result with a watched
    plate among its detections. *)
Definition calmStep (w : World) (e : Event) : bool :=
  match e, inflight w with
  | Settle o, p :: _ =>
      forallb (fun num => negb (contains (normalizePlate num) (closure_plates p)))
        (stringPrefix (snd (continuation p o)))
  | _, _ => true
  end.

(** A run in which no event brings a match. *)
Fixpoint calm (w : World) (evs : list Event) : bool :=
  match evs with
  | [] => true
  | e :: evs' => calmStep w e && calm (step w e) evs'
  end.

(** The window as the specification words it: once a match has written
    [token], AlertState keeps it for the 5 seconds that follow, whichever
    clears were pending. *)
Definition windowReset (afterMatch : World) (token : jsstring) : Prop :=
  forall evs, calm afterMatch evs = true -> elapsed evs < 5000 ->
    detectedRecently (run afterMatch evs) = Some token.

(** What the specification asks of a result that arrives when the mode is
    no longer FLASH: no log entry, no write of AlertState, no sound. *)
Definition lateResultDiscarded (w : World) (o : ServiceOutcome) : Prop :=
  mode w <> FLASH ->
  sessionLog (step w (Settle o)) = sessionLog w /\
  detectedRecently (step w (Settle o)) = detectedRecently w /\
  audioPlays (trace (step w (Settle o))) = audioPlays (trace w).

(** The detections of a result that match the store [ps], in order. *)
Definition matching (ps : list Plate) (nums : list jsstring) : list jsstring :=
  filter (fun num => contains (normalizePlate num) ps) nums.

(** The number of answers that a run delivers to a pending call. *)
Fixpoint settledRun (w : World) (evs : list Event) : nat :=
  match evs with
  | [] => 0
  | e :: evs' =>
      match e, inflight w with
      | Settle _, _ :: _ => S (settledRun (step w e) evs')
      | _, _ => settledRun (step w e) evs'
      end
  end.

(** A token as the data model wants it: characters of [[A-Z0-9]], at least
    4 of them. *)
Definition tokenOK (t : jsstring) : Prop :=
  forallb is_AZ09 t = true /\ (4 <= List.length t)%nat.

(** Every pending call is one of [detectPlatesFromImage]. *)
Definition pendingOK (w : World) : Prop :=
  Forall (fun p => continuation p = afterGenerateContent) (inflight w).

(** The pending timeouts are the 5-second clears of matches that have
    happened, and AlertState holds a token only while one is pending. *)
Definition clearsOK (w : World) : Prop :=
  Forall (fun t => delay t = 5000 /\ scheduledAt t <= clock w) (timeouts w) /\
  (detectedRecently w <> None -> timeouts w <> []).

(** Stores, captured stores, AlertState and log hold proper tokens only. *)
Definition tokensOK (w : World) : Prop :=
  Forall (fun p => tokenOK (number p)) (plates w) /\
  Forall (fun c => Forall (fun p => tokenOK (number p)) (closure_plates c)) (inflight w) /\
  (forall tok, detectedRecently w = Some tok -> tokenOK tok) /\
  Forall (fun e => forallb is_AZ09 (log_number e) = true) (sessionLog w).

(** ** Properties *)

(** ** Strings and the normalizer *)

Lemma str_eqb_eq (a b : jsstring) : str_eqb a b = true <-> a = b.
Proof.
  revert b; induction a as [|x a IH]; intros [|y b]; simpl; split;
    try congruence; try reflexivity.
  - intros H. apply andb_true_iff in H as [Hx Hab].
    apply N.eqb_eq in Hx. apply IH in Hab. congruence.
  - intros H. injection H as -> ->.
    rewrite N.eqb_refl. simpl. now apply IH.
Qed.

Lemma str_eqb_neq (a b : jsstring) : str_eqb a b = false <-> a <> b.
Proof.
  rewrite <- str_eqb_eq. destruct (str_eqb a b); split; congruence.
Qed.

(** Decides a goal about comparisons of code units by cases. *)
Ltac code_unit_cases :=
  repeat match goal with
    | |- context [N.leb ?a ?b] => destruct (N.leb_spec a b)
    | |- context [N.ltb ?a ?b] => destruct (N.ltb_spec a b)
    end;
  simpl; try reflexivity; try discriminate; try lia.

Lemma AZ09_not_lower (c : N) : is_AZ09 c = true -> is_ascii_lower c = false.
Proof. unfold is_AZ09, is_ascii_lower. code_unit_cases. Qed.

Lemma AZ09_ascii (c : N) : is_AZ09 c = true -> (c <? 128) = true.
Proof. unfold is_AZ09. code_unit_cases. Qed.

Lemma AZ09_not_surrogate (c : N) : is_AZ09 c = true -> is_high_surrogate c = false.
Proof. unfold is_AZ09, is_high_surrogate. code_unit_cases. Qed.

Lemma upperCodePoint_AZ09 (c : N) : is_AZ09 c = true -> upperCodePoint c = [c].
Proof.
  intros H. unfold upperCodePoint.
  now rewrite (AZ09_not_lower c H), (AZ09_ascii c H).
Qed.

(** Upper-casing leaves a string of [[A-Z0-9]] characters as it is. *)
Lemma toUpperCase_AZ09 (s : jsstring) :
  forallb is_AZ09 s = true -> toUpperCase s = s.
Proof.
  induction s as [|c s IH]; [reflexivity|].
  intros H. apply andb_true_iff in H as [Hc Hs].
  specialize (IH Hs). simpl. destruct s as [|d s'].
  - now apply upperCodePoint_AZ09.
  - rewrite (AZ09_not_surrogate c Hc). simpl andb. cbv iota.
    rewrite (upperCodePoint_AZ09 c Hc), IH. reflexivity.
Qed.

Lemma filter_forallb {A : Type} (f : A -> bool) (l : list A) :
  forallb f (filter f l) = true.
Proof.
  induction l as [|x l IH]; simpl; [reflexivity|].
  destruct (f x) eqn:E; simpl; [rewrite E|]; assumption.
Qed.

Lemma normalizePlate_AZ09 (s : jsstring) :
  forallb is_AZ09 (normalizePlate s) = true.
Proof. apply filter_forallb. Qed.

(** ** The watchlist store *)

Lemma contains_In (token : jsstring) (ps : list Plate) :
  contains token ps = true <-> exists p, In p ps /\ number p = token.
Proof.
  unfold contains. rewrite existsb_exists.
  split; intros [p [Hin H]]; exists p; split; trivial; now apply str_eqb_eq.
Qed.

Lemma setPlates_same (w : World) : setPlates (plates w) w = w.
Proof. now destruct w. Qed.

(** In a list whose numbers are pairwise different, a number names one plate. *)
Lemma unique_number_same_plate (ps : list Plate) (p q : Plate) :
  NoDup (map number ps) -> In p ps -> In q ps -> number p = number q -> p = q.
Proof.
  induction ps as [|x ps IH]; simpl; [tauto|].
  intros Hnd Hp Hq E. inversion Hnd as [|? ? Hx Hps]; subst.
  destruct Hp as [->|Hp], Hq as [->|Hq]; trivial.
  - exfalso. apply Hx. rewrite E. now apply in_map.
  - exfalso. apply Hx. rewrite <- E. now apply in_map.
  - now apply IH.
Qed.

Lemma NoDup_map_filter {A B : Type} (f : A -> B) (g : A -> bool) (l : list A) :
  NoDup (map f l) -> NoDup (map f (filter g l)).
Proof.
  induction l as [|x l IH]; simpl; [trivial|].
  intros Hnd. inversion Hnd as [|? ? Hx Hl]; subst.
  destruct (g x); simpl; [constructor|]; auto.
  intros Hin. apply Hx. apply in_map_iff in Hin as [y [E Hy]].
  apply filter_In in Hy as [Hy _]. rewrite <- E. now apply in_map.
Qed.

Lemma addPlate_plates (uuid : jsstring) (w : World) :
  plates (addPlate uuid w) = plates w \/
  (contains (normalizePlate (newPlate w)) (plates w) = false /\
   plates (addPlate uuid w) =
   mkPlate uuid (normalizePlate (newPlate w)) (clock w) :: plates w).
Proof.
  unfold addPlate.
  destruct (List.length (normalizePlate (newPlate w)) <? 4)%nat; [now left|].
  destruct (contains (normalizePlate (newPlate w)) (plates w)) eqn:E;
    [now left | now right].
Qed.

Lemma addPlate_uniqueNumbers (uuid : jsstring) (w : World) :
  uniqueNumbers w -> uniqueNumbers (addPlate uuid w).
Proof.
  unfold uniqueNumbers. intros H.
  destruct (addPlate_plates uuid w) as [-> | [Hc ->]]; trivial.
  simpl. constructor; trivial.
  intros Hin. apply in_map_iff in Hin as [q [E Hq]].
  assert (contains (normalizePlate (newPlate w)) (plates w) = true)
    by (apply contains_In; eauto).
  congruence.
Qed.

Lemma removePlate_uniqueNumbers (id0 : jsstring) (w : World) :
  uniqueNumbers w -> uniqueNumbers (removePlate id0 w).
Proof. unfold uniqueNumbers. simpl. apply NoDup_map_filter. Qed.

Lemma normalize_ab_12 : normalizePlate (js "ab-12") = js "AB12".
Proof. reflexivity. Qed.

Lemma normalize_ab1_2 : normalizePlate (js "ab1-2") = js "AB12".
Proof. reflexivity. Qed.

Lemma normalize_xyz : normalizePlate (js "xyz") = js "XYZ".
Proof. reflexivity. Qed.

Lemma addPlate_too_short (uuid : jsstring) (w : World) :
  (List.length (normalizePlate (newPlate w)) < 4)%nat ->
  addPlate uuid w = emit (Alert "Plaque trop courte") w.
Proof.
  intros H. unfold addPlate. apply Nat.ltb_lt in H. now rewrite H.
Qed.

Lemma addPlate_duplicate (uuid : jsstring) (w : World) :
  (4 <= List.length (normalizePlate (newPlate w)))%nat ->
  contains (normalizePlate (newPlate w)) (plates w) = true ->
  addPlate uuid w = emit (Alert "Déjà surveillé") w.
Proof.
  intros H Hc. unfold addPlate.
  apply Nat.ltb_ge in H. now rewrite H, Hc.
Qed.

Lemma addPlate_fresh (uuid : jsstring) (w : World) :
  (4 <= List.length (normalizePlate (newPlate w)))%nat ->
  contains (normalizePlate (newPlate w)) (plates w) = false ->
  added uuid (normalizePlate (newPlate w)) w (addPlate uuid w).
Proof.
  intros H Hc. unfold addPlate, added.
  apply Nat.ltb_ge in H. now rewrite H, Hc.
Qed.

(** C9: the normalizer is idempotent, and what it returns holds only
    characters of [[A-Z0-9]]: normalizing a second time changes nothing. *)
Theorem normalizePlate_idempotent (s : jsstring) :
  normalizePlate (normalizePlate s) = normalizePlate s /\
  forallb is_AZ09 (normalizePlate s) = true.
Proof.
  split; [|apply normalizePlate_AZ09].
  unfold normalizePlate at 1.
  rewrite toUpperCase_AZ09 by apply normalizePlate_AZ09.
  apply forallb_filter_id, normalizePlate_AZ09.
Qed.

(** C1, as the code has it: in a store that does not hold "AB12",
    add("ab-12") and add("ab1-2") both succeed and store the token "AB12",
    whose length is exactly 4, and add("xyz") fails with a ValidationError
    (token "XYZ", length 3).  In general a token of length 3 is refused and
    a token of length 4 that is not yet watched is stored. *)
Theorem add_length_boundary (uuid : jsstring) (w : World) :
  contains (js "AB12") (plates w) = false ->
  added uuid (js "AB12") (setNewPlate (js "ab-12") w)
    (addPlate uuid (setNewPlate (js "ab-12") w)) /\
  added uuid (js "AB12") (setNewPlate (js "ab1-2") w)
    (addPlate uuid (setNewPlate (js "ab1-2") w)) /\
  validationError (setNewPlate (js "xyz") w)
    (addPlate uuid (setNewPlate (js "xyz") w)) /\
  (forall raw, List.length (normalizePlate raw) = 3%nat ->
     validationError (setNewPlate raw w) (addPlate uuid (setNewPlate raw w))) /\
  (forall raw, List.length (normalizePlate raw) = 4%nat ->
     contains (normalizePlate raw) (plates w) = false ->
     added uuid (normalizePlate raw) (setNewPlate raw w)
       (addPlate uuid (setNewPlate raw w))).
Proof.
  intros Hfresh.
  assert (Hshort : forall raw, List.length (normalizePlate raw) = 3%nat ->
            validationError (setNewPlate raw w) (addPlate uuid (setNewPlate raw w))).
  { intros raw H. exists "Plaque trop courte"%string.
    apply addPlate_too_short. simpl newPlate. lia. }
  assert (Hok : forall raw, List.length (normalizePlate raw) = 4%nat ->
            contains (normalizePlate raw) (plates w) = false ->
            added uuid (normalizePlate raw) (setNewPlate raw w)
              (addPlate uuid (setNewPlate raw w))).
  { intros raw H Hc. apply addPlate_fresh; simpl newPlate; [lia | exact Hc]. }
  repeat split; trivial.
  - rewrite <- normalize_ab_12 at 1. apply Hok; [reflexivity | exact Hfresh].
  - rewrite <- normalize_ab1_2 at 1. apply Hok; [reflexivity | exact Hfresh].
  - apply Hshort. reflexivity.
Qed.

(** C6: when the normalized token of the input is already in the store,
    however the raw input is written, [addPlate] fails with a
    ValidationError and the store is unchanged. *)
Theorem add_duplicate_rejected (uuid : jsstring) (w : World) :
  contains (normalizePlate (newPlate w)) (plates w) = true ->
  validationError w (addPlate uuid w) /\
  plates (addPlate uuid w) = plates w.
Proof.
  intros Hc.
  assert (H : validationError w (addPlate uuid w)).
  { destruct (Nat.lt_ge_cases (List.length (normalizePlate (newPlate w))) 4).
    - eexists. now apply addPlate_too_short.
    - eexists. now apply addPlate_duplicate. }
  split; [exact H|]. destruct H as [msg ->]. reflexivity.
Qed.

(** ** The capture loop *)

Lemma sameControl_refl (w : World) : sameControl w w.
Proof. repeat split. Qed.

Lemma sameControl_trans (a b c : World) :
  sameControl a b -> sameControl b c -> sameControl a c.
Proof. unfold sameControl. intuition congruence. Qed.

Lemma emits_eq (effs : list Effect) (w : World) :
  fold_left (fun acc e => emit e acc) effs w =
  mkWorld (plates w) (mode w) (newPlate w) (isProcessing w) (detectedRecently w)
    (sessionLog w) (clock w) (timeouts w) (inflight w) (trace w ++ effs).
Proof.
  revert w. induction effs as [|e effs IH]; intros w; simpl.
  - rewrite app_nil_r. now destruct w.
  - rewrite IH. simpl. now rewrite <- app_assoc.
Qed.

Lemma onDetected_sessionLog (ps : list Plate) (num : jsstring) (w : World) :
  sessionLog (onDetected ps num w) =
  firstn 10 (logEntryOf ps (clock w) num :: sessionLog w).
Proof.
  unfold onDetected, logEntryOf.
  now destruct (contains (normalizePlate num) ps).
Qed.

Lemma onDetected_sameControl (ps : list Plate) (num : jsstring) (w : World) :
  sameControl w (onDetected ps num w).
Proof.
  unfold onDetected. destruct (contains (normalizePlate num) ps); repeat split.
Qed.

Lemma forEachDetected_sameControl (ps : list Plate) (detected : list Json) (w : World) :
  sameControl w (fst (forEachDetected ps detected w)).
Proof.
  revert w. induction detected as [|d detected IH]; intros w; simpl.
  - apply sameControl_refl.
  - destruct d; try apply sameControl_refl.
    eapply sameControl_trans; [apply onDetected_sameControl | apply IH].
Qed.

Lemma forEachDetected_strings (ps : list Plate) (nums : list jsstring) (w : World) :
  forEachDetected ps (map JString nums) w =
  (fold_left (fun acc num => onDetected ps num acc) nums w, false).
Proof.
  revert w. induction nums as [|num nums IH]; intros w; simpl; [reflexivity|].
  apply IH.
Qed.

Lemma firstn_app_firstn {A : Type} (n : nat) (a b : list A) :
  firstn n (a ++ firstn n b) = firstn n (a ++ b).
Proof.
  rewrite !firstn_app, firstn_firstn. f_equal. f_equal. lia.
Qed.

Lemma fold_onDetected_clock (ps : list Plate) (nums : list jsstring) (w : World) :
  clock (fold_left (fun acc num => onDetected ps num acc) nums w) = clock w.
Proof.
  revert w. induction nums as [|num nums IH]; intros w; simpl; [reflexivity|].
  rewrite IH. apply onDetected_sameControl.
Qed.

(** Detections are prepended one after the other and the log is cut to 10
    after each. *)
Lemma fold_onDetected_sessionLog (ps : list Plate) (num : jsstring)
    (nums : list jsstring) (w : World) :
  sessionLog (fold_left (fun acc n => onDetected ps n acc) (num :: nums) w) =
  firstn 10 (rev (map (logEntryOf ps (clock w)) (num :: nums)) ++ sessionLog w).
Proof.
  revert num w. induction nums as [|n2 nums IH]; intros num w.
  - simpl. apply onDetected_sessionLog.
  - change (fold_left (fun acc n => onDetected ps n acc) (num :: n2 :: nums) w)
      with (fold_left (fun acc n => onDetected ps n acc) (n2 :: nums)
              (onDetected ps num w)).
    rewrite IH, onDetected_sessionLog.
    replace (clock (onDetected ps num w)) with (clock w)
      by (symmetry; apply onDetected_sameControl).
    rewrite firstn_app_firstn.
    change (map (logEntryOf ps (clock w)) (num :: n2 :: nums))
      with (logEntryOf ps (clock w) num :: map (logEntryOf ps (clock w)) (n2 :: nums)).
    cbn [rev]. rewrite <- !app_assoc. reflexivity.
Qed.

Lemma forEachDetected_log_le_10 (ps : list Plate) (detected : list Json) (w : World) :
  (List.length (sessionLog w) <= 10)%nat ->
  (List.length (sessionLog (fst (forEachDetected ps detected w))) <= 10)%nat.
Proof.
  revert w. induction detected as [|d detected IH]; intros w H; simpl; trivial.
  destruct d; trivial. apply IH.
  rewrite onDetected_sessionLog. apply firstn_le_length.
Qed.

Lemma afterDetect_fields (ps : list Plate) (r : Logged (list Json)) (w : World) :
  let w' := afterDetect ps r w in
  plates w' = plates w /\ mode w' = mode w /\ newPlate w' = newPlate w /\
  isProcessing w' = false /\ clock w' = clock w /\ inflight w' = inflight w.
Proof.
  unfold afterDetect. rewrite emits_eq.
  set (w1 := mkWorld _ _ _ _ _ _ _ _ _ _).
  pose proof (forEachDetected_sameControl ps (snd r) w1) as H.
  destruct (forEachDetected ps (snd r) w1) as [w2 threw]. simpl in H.
  destruct H as (Hp & Hm & Hn & _ & Hc & Hi).
  destruct threw; simpl; repeat split; assumption.
Qed.

Lemma afterDetect_sessionLog (ps : list Plate) (r : Logged (list Json)) (w : World) :
  sessionLog (afterDetect ps r w) =
  sessionLog (fst (forEachDetected ps (snd r)
                     (fold_left (fun acc e => emit e acc) (fst r) w))).
Proof.
  unfold afterDetect.
  destruct (forEachDetected ps (snd r) _) as [w2 threw].
  now destruct threw.
Qed.

Lemma afterDetect_log_le_10 (ps : list Plate) (r : Logged (list Json)) (w : World) :
  (List.length (sessionLog w) <= 10)%nat ->
  (List.length (sessionLog (afterDetect ps r w)) <= 10)%nat.
Proof.
  intros H. rewrite afterDetect_sessionLog.
  apply forEachDetected_log_le_10. now rewrite emits_eq.
Qed.

(** An immediate return of the detector carries no effect and no plate. *)
Lemma detect_resolved (base64 : option jsstring) (r : Logged (list Json)) :
  detectPlatesFromImage base64 = Resolved r -> r = ([], []).
Proof.
  unfold detectPlatesFromImage. destruct base64 as [img|]; [|congruence].
  destruct ((List.length img =? 0)%nat || (List.length img <? 50)%nat); congruence.
Qed.

Lemma detect_awaiting (base64 : option jsstring) (data : jsstring)
    (k : ServiceOutcome -> Logged (list Json)) :
  detectPlatesFromImage base64 = Awaiting data k ->
  base64 = Some data /\ k = afterGenerateContent /\ (50 <= List.length data)%nat.
Proof.
  unfold detectPlatesFromImage. destruct base64 as [img|]; [|congruence].
  destruct (List.length img =? 0)%nat eqn:E0; simpl; [congruence|].
  destruct (List.length img <? 50)%nat eqn:E; [congruence|].
  intros H. injection H as -> <-. apply Nat.ltb_ge in E. auto.
Qed.

Lemma afterDetect_nothing (ps : list Plate) (w : World) :
  afterDetect ps ([], []) w = setIsProcessing false w.
Proof. reflexivity. Qed.

Lemma processFrame_log (dom : Dom) (w : World) :
  sessionLog (processFrame dom w) = sessionLog w.
Proof.
  unfold processFrame.
  destruct (videoRef dom) as [video|]; [|reflexivity].
  destruct (canvasRef dom) as [canvas|]; [|reflexivity].
  destruct (isProcessing w || negb (mode_eqb (mode w) FLASH)); [reflexivity|].
  destruct (negb (readyState video =? HAVE_ENOUGH_DATA)); [reflexivity|].
  destruct (negb (context2d canvas)); [reflexivity|].
  destruct (detectPlatesFromImage _) as [r|data k] eqn:E; [|reflexivity].
  apply detect_resolved in E. subst r. reflexivity.
Qed.

Lemma step_log_le_10 (w : World) (e : Event) :
  (List.length (sessionLog w) <= 10)%nat ->
  (List.length (sessionLog (step w e)) <= 10)%nat.
Proof.
  intros H. destruct e; simpl; trivial.
  - now rewrite processFrame_log.
  - unfold settle. destruct (inflight w); trivial.
    now apply afterDetect_log_le_10.
  - unfold fireTimeout. destruct (nth_error _ _); trivial.
    now destruct (_ <=? _).
  - unfold addPlate.
    destruct (_ <? _)%nat; trivial. now destruct (contains _ _).
Qed.

Lemma run_log_le_10 (evs : list Event) (w : World) :
  (List.length (sessionLog w) <= 10)%nat ->
  (List.length (sessionLog (run w evs)) <= 10)%nat.
Proof.
  revert w. induction evs as [|e evs IH]; intros w H; simpl; trivial.
  apply IH. now apply step_log_le_10.
Qed.

Lemma forEachDetected_log (ps : list Plate) (detected : list Json) (w : World) :
  (List.length (sessionLog w) <= 10)%nat ->
  sessionLog (fst (forEachDetected ps detected w)) =
  firstn 10 (rev (map (logEntryOf ps (clock w)) (stringPrefix detected)) ++ sessionLog w).
Proof.
  revert w. induction detected as [|d detected IH]; intros w H.
  - cbn [forEachDetected fst stringPrefix map rev app]. now rewrite firstn_all2.
  - destruct d;
      try (cbn [forEachDetected fst stringPrefix map rev app]; now rewrite firstn_all2).
    cbn [forEachDetected stringPrefix map rev].
    rewrite IH by (rewrite onDetected_sessionLog; apply firstn_le_length).
    rewrite onDetected_sessionLog, firstn_app_firstn.
    replace (clock (onDetected ps s w)) with (clock w)
      by (symmetry; apply onDetected_sameControl).
    now rewrite <- app_assoc.
Qed.

Lemma step_log (w : World) (e : Event) :
  (List.length (sessionLog w) <= 10)%nat ->
  sessionLog (step w e) = firstn 10 (loggedBy w e ++ sessionLog w).
Proof.
  intros H.
  assert (Hsame : forall w', sessionLog w' = sessionLog w ->
            sessionLog w' = firstn 10 ([] ++ sessionLog w)).
  { intros w' ->. now rewrite firstn_all2. }
  destruct e; cbn [step loggedBy]; try (apply Hsame; reflexivity).
  - apply Hsame, processFrame_log.
  - unfold settle. destruct (inflight w) as [|p rest]; [now apply Hsame|].
    rewrite afterDetect_sessionLog, forEachDetected_log; rewrite emits_eq; trivial.
  - apply Hsame. unfold fireTimeout.
    destruct (nth_error _ _); [destruct (_ <=? _)|]; reflexivity.
  - apply Hsame. unfold addPlate.
    destruct (_ <? _)%nat; [|destruct (contains _ _)]; reflexivity.
Qed.

(** The log after a run is what the run logged, newest first, in front of
    the log before, cut to 10 entries. *)
Lemma run_log (evs : list Event) (w : World) :
  (List.length (sessionLog w) <= 10)%nat ->
  sessionLog (run w evs) = firstn 10 (loggedRun w evs ++ sessionLog w).
Proof.
  revert w. induction evs as [|e evs IH]; intros w H.
  - cbn [run fold_left loggedRun app]. now rewrite firstn_all2.
  - change (run w (e :: evs)) with (run (step w e) evs).
    rewrite IH by now apply step_log_le_10.
    rewrite step_log by exact H.
    rewrite firstn_app_firstn. cbn [loggedRun]. now rewrite <- app_assoc.
Qed.

(** C5: the session log never exceeds 10 entries and is ordered newest
    first: after any events it holds the 10 newest of the entries logged so
    far; the detections of a result are prepended in order, the log being
    cut to its first 10 entries; so after 15 detections exactly the 10 most
    recent remain, newest first, the 5 oldest being gone. *)
Theorem session_log_capped :
  (forall evs,
     (List.length (sessionLog (run initial evs)) <= 10)%nat /\
     sessionLog (run initial evs) = firstn 10 (loggedRun initial evs)) /\
  (forall ps effs num nums w,
     sessionLog (afterDetect ps (effs, map JString (num :: nums)) w) =
     firstn 10 (rev (map (logEntryOf ps (clock w)) (num :: nums)) ++ sessionLog w)) /\
  (forall ps effs nums w, List.length nums = 15%nat ->
     sessionLog (afterDetect ps (effs, map JString nums) w) =
     rev (map (logEntryOf ps (clock w)) (skipn 5 nums)) /\
     List.length (sessionLog (afterDetect ps (effs, map JString nums) w)) = 10%nat).
Proof.
  assert (Hlaw : forall ps effs num nums w,
     sessionLog (afterDetect ps (effs, map JString (num :: nums)) w) =
     firstn 10 (rev (map (logEntryOf ps (clock w)) (num :: nums)) ++ sessionLog w)).
  { intros ps effs num nums w. rewrite afterDetect_sessionLog.
    cbn [fst snd]. rewrite forEachDetected_strings. cbn [fst].
    rewrite fold_onDetected_sessionLog, emits_eq. reflexivity. }
  split; [|split; [exact Hlaw|]].
  - intros evs. split.
    + apply run_log_le_10. simpl. lia.
    + rewrite run_log by (simpl; lia). cbn [sessionLog initial].
      now rewrite app_nil_r.
  - intros ps effs nums w H15.
    assert (E : sessionLog (afterDetect ps (effs, map JString nums) w) =
                rev (map (logEntryOf ps (clock w)) (skipn 5 nums))).
    { destruct nums as [|num nums]; [discriminate|].
      rewrite Hlaw, firstn_app.
      rewrite length_rev, length_map, H15. simpl firstn at 2.
      rewrite app_nil_r, firstn_rev, length_map, H15.
      now rewrite skipn_map. }
    split; [exact E|].
    rewrite E, length_rev, length_map, length_skipn. lia.
Qed.

(** C10: for a payload of fewer than 50 code units, the empty string
    included, [detectPlatesFromImage] returns the empty list at once, with
    no call to the detection service; and a tick whose frame has such a
    payload leaves the call trace and the pending calls as they were. *)
Theorem short_payload_no_call (img : jsstring) :
  (List.length img < 50)%nat ->
  detectPlatesFromImage (Some img) = Resolved ([], []) /\
  (forall dom canvas w,
     canvasRef dom = Some canvas ->
     nth_error (split_comma (toDataURL canvas)) 1 = Some img ->
     trace (processFrame dom w) = trace w /\
     inflight (processFrame dom w) = inflight w).
Proof.
  intros Hlen.
  assert (E : detectPlatesFromImage (Some img) = Resolved ([], [])).
  { unfold detectPlatesFromImage. apply Nat.ltb_lt in Hlen.
    now rewrite Hlen, orb_true_r. }
  split; [exact E|].
  intros dom canvas w Hc Himg. unfold processFrame. rewrite Hc.
  destruct (videoRef dom) as [video|]; [|now split].
  destruct (isProcessing w || negb (mode_eqb (mode w) FLASH)); [now split|].
  destruct (negb (readyState video =? HAVE_ENOUGH_DATA)); [now split|].
  destruct (negb (context2d canvas)); [now split|].
  rewrite Himg, E. now split.
Qed.

(** *** Single flight *)

(** A tick writes neither the store, the mode, the input, the log, the
    alert, the clock nor the timeouts. *)
Lemma processFrame_frame (dom : Dom) (w : World) :
  let w' := processFrame dom w in
  plates w' = plates w /\ mode w' = mode w /\ newPlate w' = newPlate w /\
  sessionLog w' = sessionLog w /\ detectedRecently w' = detectedRecently w /\
  clock w' = clock w /\ timeouts w' = timeouts w.
Proof.
  unfold processFrame.
  destruct (videoRef dom) as [video|]; [|repeat split].
  destruct (canvasRef dom) as [canvas|]; [|repeat split].
  destruct (isProcessing w || negb (mode_eqb (mode w) FLASH)); [repeat split|].
  destruct (negb (readyState video =? HAVE_ENOUGH_DATA)); [repeat split|].
  destruct (negb (context2d canvas)); [repeat split|].
  destruct (detectPlatesFromImage _) as [r|data k] eqn:E; [|repeat split].
  apply detect_resolved in E. subst r. repeat split.
Qed.

(** While the flag is set a tick does nothing at all. *)
Lemma processFrame_busy (dom : Dom) (w : World) :
  isProcessing w = true -> processFrame dom w = w.
Proof.
  intros H. unfold processFrame. rewrite H. simpl.
  destruct (videoRef dom); [|reflexivity]. now destruct (canvasRef dom).
Qed.

Lemma step_uniqueNumbers (w : World) (e : Event) :
  uniqueNumbers w -> uniqueNumbers (step w e).
Proof.
  intros H. destruct e; simpl; trivial.
  - unfold uniqueNumbers.
    now destruct (processFrame_frame dom w) as (-> & _).
  - unfold settle, uniqueNumbers. destruct (inflight w) as [|p rest]; trivial.
    now destruct (afterDetect_fields (closure_plates p) (continuation p o)
                    (setInflight rest w)) as (-> & _).
  - unfold fireTimeout. destruct (nth_error _ _); trivial.
    now destruct (_ <=? _).
  - now apply addPlate_uniqueNumbers.
  - now apply removePlate_uniqueNumbers.
Qed.

Lemma run_uniqueNumbers (evs : list Event) (w : World) :
  uniqueNumbers w -> uniqueNumbers (run w evs).
Proof.
  revert w. induction evs as [|e evs IH]; intros w H; simpl; trivial.
  apply IH. now apply step_uniqueNumbers.
Qed.

(** The tokens of the store are normalized and at least 4 characters long. *)
Lemma addPlate_wellFormed (uuid : jsstring) (w : World) :
  wellFormedStore w -> wellFormedStore (addPlate uuid w).
Proof.
  unfold wellFormedStore, addPlate. intros H.
  destruct (List.length (normalizePlate (newPlate w)) <? 4)%nat eqn:E; trivial.
  destruct (contains _ _); trivial.
  simpl. constructor; trivial. simpl. split.
  - apply normalizePlate_AZ09.
  - now apply Nat.ltb_ge.
Qed.

Lemma step_wellFormed (w : World) (e : Event) :
  wellFormedStore w -> wellFormedStore (step w e).
Proof.
  intros H. destruct e; simpl; trivial.
  - unfold wellFormedStore.
    now destruct (processFrame_frame dom w) as (-> & _).
  - unfold settle, wellFormedStore. destruct (inflight w) as [|p rest]; trivial.
    now destruct (afterDetect_fields (closure_plates p) (continuation p o)
                    (setInflight rest w)) as (-> & _).
  - unfold fireTimeout. destruct (nth_error _ _); trivial.
    now destruct (_ <=? _).
  - now apply addPlate_wellFormed.
  - unfold wellFormedStore, removePlate in *. simpl.
    apply Forall_forall. intros p Hp. apply filter_In in Hp as [Hp _].
    revert p Hp. now apply Forall_forall.
Qed.

(** The data model of the store: whatever the user and the loop do, starting
    from the empty store, every number is a normalized token of at least 4
    characters. *)
Lemma store_well_formed (evs : list Event) : wellFormedStore (run initial evs).
Proof.
  assert (H : forall w, wellFormedStore w -> wellFormedStore (run w evs)).
  { induction evs as [|e evs IH]; intros w Hw; simpl; trivial.
    apply IH. now apply step_wellFormed. }
  apply H. constructor.
Qed.

(** C8: the numbers of the store are pairwise different, whatever the user
    and the loop have done; in such a store, removing a plate by its id
    makes [contains] of its token false; and removing an id that no plate has
    changes nothing, neither the size of the store nor its contents. *)
Theorem remove_then_contains :
  (forall evs, uniqueNumbers (run initial evs)) /\
  (forall w, uniqueNumbers w ->
     forall p, In p (plates w) ->
       contains (number p) (plates (removePlate (id p) w)) = false) /\
  (forall w id0, (forall p, In p (plates w) -> id p <> id0) ->
     removePlate id0 w = w /\
     List.length (plates (removePlate id0 w)) = List.length (plates w)).
Proof.
  split; [|split].
  - intros evs. apply run_uniqueNumbers. constructor.
  - intros w Hu p Hp.
    destruct (contains (number p) (plates (removePlate (id p) w))) eqn:E; trivial.
    apply contains_In in E as [q [Hq E]]. simpl in Hq.
    apply filter_In in Hq as [Hq Hid].
    assert (q = p) by (apply (unique_number_same_plate (plates w)); trivial).
    subst q. apply negb_true_iff, str_eqb_neq in Hid. congruence.
  - intros w id0 Hid.
    assert (E : removePlate id0 w = w).
    { unfold removePlate. rewrite forallb_filter_id; [apply setPlates_same|].
      apply forallb_forall. intros p Hp.
      apply negb_true_iff, str_eqb_neq. now apply Hid. }
    now rewrite E.
Qed.

Lemma processFrame_singleFlight (dom : Dom) (w : World) :
  singleFlight w -> singleFlight (processFrame dom w).
Proof.
  intros H. destruct (isProcessing w) eqn:Eb.
  - now rewrite processFrame_busy.
  - destruct H as [Hnil | [Habs _]]; [|congruence].
    unfold processFrame, singleFlight.
    destruct (videoRef dom) as [video|]; [|now left].
    destruct (canvasRef dom) as [canvas|]; [|now left].
    rewrite Eb. simpl orb.
    destruct (negb (mode_eqb (mode w) FLASH)); [now left|].
    destruct (negb (readyState video =? HAVE_ENOUGH_DATA)); [now left|].
    destruct (negb (context2d canvas)); [now left|].
    destruct (detectPlatesFromImage _) as [r|data k] eqn:E.
    + apply detect_resolved in E. subst r. now left.
    + right. simpl. rewrite Hnil. auto.
Qed.

Lemma step_singleFlight (w : World) (e : Event) :
  singleFlight w -> singleFlight (step w e).
Proof.
  intros H. destruct e; simpl; trivial.
  - now apply processFrame_singleFlight.
  - unfold settle. destruct (inflight w) as [|p rest] eqn:E; trivial.
    left. destruct H as [H | [_ H]]; [congruence|].
    rewrite E in H. destruct rest; [|discriminate].
    now destruct (afterDetect_fields (closure_plates p) (continuation p o)
                    (setInflight [] w)) as (_ & _ & _ & _ & _ & ->).
  - unfold fireTimeout. destruct (nth_error _ _); trivial.
    now destruct (_ <=? _).
  - unfold addPlate.
    destruct (_ <? _)%nat; trivial. now destruct (contains _ _).
Qed.

(** Whatever happens, at most one detection call is pending; and a tick
    that fires while one is pending changes nothing and calls nothing. *)
Lemma single_flight (evs : list Event) :
  singleFlight (run initial evs) /\
  (forall dom, inflight (run initial evs) <> [] ->
     processFrame dom (run initial evs) = run initial evs).
Proof.
  assert (H : forall w, singleFlight w -> singleFlight (run w evs)).
  { induction evs as [|e evs IH]; intros w Hw; simpl; trivial.
    apply IH. now apply step_singleFlight. }
  specialize (H initial (or_introl eq_refl)).
  split; [exact H|].
  intros dom Hne. apply processFrame_busy.
  destruct H as [H | [H _]]; [contradiction | exact H].
Qed.

Lemma split_no_comma (cur s : jsstring) :
  ~ In 44 s -> split_comma_aux cur s = [rev cur ++ s].
Proof.
  revert cur. induction s as [|c s IH]; intros cur H; simpl.
  - now rewrite app_nil_r.
  - destruct (N.eqb_spec c 44) as [->|_]; [exfalso; apply H; now left|].
    rewrite IH by (intros Hin; apply H; now right).
    simpl. now rewrite <- app_assoc.
Qed.

(** The payload of a data URL is what follows its comma. *)
Lemma frameWith_payload (data : jsstring) :
  ~ In 44 data ->
  nth_error (split_comma (js "data:image/jpeg;base64," ++ data)) 1 = Some data.
Proof.
  intros H. unfold split_comma. cbn -[split_comma_aux nth_error].
  cbn [split_comma_aux N.eqb Pos.eqb]. now rewrite split_no_comma.
Qed.

(** A tick that finds the flag clear, the mode FLASH and a frame with a
    payload of 50 code units or more sets the flag and calls the detector. *)
Lemma processFrame_calls (data : jsstring) (w : World) :
  isProcessing w = false -> mode w = FLASH ->
  (50 <= List.length data)%nat -> ~ In 44 data ->
  processFrame (frameWith data) w =
  emit (GenerateContent data)
    (setInflight (inflight w ++ [mkInflight (plates w) afterGenerateContent])
       (setIsProcessing true w)).
Proof.
  intros Hb Hm Hlen Hcomma. unfold processFrame, frameWith.
  cbn [videoRef canvasRef readyState context2d toDataURL].
  rewrite Hb, Hm. cbn [mode_eqb negb orb]. change (HAVE_ENOUGH_DATA =? HAVE_ENOUGH_DATA) with true.
  cbn [negb]. rewrite (frameWith_payload data Hcomma).
  unfold detectPlatesFromImage.
  replace (List.length data <? 50)%nat with false by (symmetry; now apply Nat.ltb_ge).
  replace (List.length data =? 0)%nat with false
    by (symmetry; apply Nat.eqb_neq; lia).
  reflexivity.
Qed.

(** Every pending call is one of [detectPlatesFromImage]: what waits for the
    service is the rest of that function. *)
Lemma pending_continuation (evs : list Event) :
  Forall (fun p => continuation p = afterGenerateContent)
    (inflight (run initial evs)).
Proof.
  assert (H : forall w,
            Forall (fun p => continuation p = afterGenerateContent) (inflight w) ->
            Forall (fun p => continuation p = afterGenerateContent)
              (inflight (run w evs))).
  { induction evs as [|e evs IH]; intros w Hw; simpl; trivial.
    apply IH. destruct e; simpl; trivial.
    - unfold processFrame.
      destruct (videoRef dom) as [video|]; trivial.
      destruct (canvasRef dom) as [canvas|]; trivial.
      destruct (isProcessing w || negb (mode_eqb (mode w) FLASH)); trivial.
      destruct (negb (readyState video =? HAVE_ENOUGH_DATA)); trivial.
      destruct (negb (context2d canvas)); trivial.
      destruct (detectPlatesFromImage _) as [r|data k] eqn:E.
      + apply detect_resolved in E. now subst r.
      + apply detect_awaiting in E as (_ & -> & _). simpl.
        apply Forall_app. split; [exact Hw | now constructor].
    - unfold settle. destruct (inflight w) as [|p rest] eqn:E; [now rewrite E|].
      destruct (afterDetect_fields (closure_plates p) (continuation p o)
                  (setInflight rest w)) as (_ & _ & _ & _ & _ & ->).
      simpl. now inversion Hw.
    - unfold fireTimeout. destruct (nth_error _ _); trivial.
      now destruct (_ <=? _).
    - unfold addPlate. destruct (_ <? _)%nat; trivial.
      now destruct (contains _ _). }
  apply H. constructor.
Qed.

(** *** A failing detector *)

(** C7: when the pending detector call fails (the service rejects, or its
    answer makes the [try] block throw), the detector logs the error and
    yields the empty list; the tick ends with the flag cleared and nothing
    else changed, in particular neither the store nor the session log; and
    the loop goes on: the next tick with a frame calls the detector again. *)
Theorem detector_failure_swallowed
    (w : World) (ps : list Plate) (rest : list Inflight) (o : ServiceOutcome) :
  inflight w = mkInflight ps afterGenerateContent :: rest ->
  tryGenerateContent o = Throw ->
  afterGenerateContent o = ([ConsoleError], []) /\
  step w (Settle o) = emit ConsoleError (setIsProcessing false (setInflight rest w)) /\
  plates (step w (Settle o)) = plates w /\
  sessionLog (step w (Settle o)) = sessionLog w /\
  (forall data, mode w = FLASH -> (50 <= List.length data)%nat ->
     ~ In 44 data ->
     trace (step (step w (Settle o)) (Tick (frameWith data))) =
     trace w ++ [ConsoleError; GenerateContent data]).
Proof.
  intros Hin Hthrow.
  assert (Ek : afterGenerateContent o = ([ConsoleError], []))
    by (unfold afterGenerateContent; now rewrite Hthrow).
  assert (Es : step w (Settle o) =
               emit ConsoleError (setIsProcessing false (setInflight rest w))).
  { simpl. unfold settle. rewrite Hin. simpl. rewrite Ek. reflexivity. }
  repeat split; trivial; try (rewrite Es; reflexivity).
  intros data Hmode Hlen Hcomma. rewrite Es. simpl step.
  rewrite processFrame_calls; trivial.
  simpl. now rewrite <- app_assoc.
Qed.

(** *** The flag when the canvas has no context *)

Lemma step_stuck (w : World) (e : Event) : stuck w -> stuck (step w e).
Proof.
  intros (Hb & Hi & Hc). destruct e; simpl.
  - now rewrite processFrame_busy.
  - unfold settle. now rewrite Hi.
  - unfold fireTimeout. destruct (nth_error _ _); [|now repeat split].
    destruct (_ <=? _); now repeat split.
  - now repeat split.
  - now repeat split.
  - unfold addPlate. destruct (_ <? _)%nat.
    + repeat split; trivial. simpl. unfold calls in *.
      now rewrite filter_app, Hc.
    + destruct (contains _ _); repeat split; trivial.
      simpl. unfold calls in *. now rewrite filter_app, Hc.
  - now repeat split.
  - now repeat split.
Qed.

Lemma run_stuck (evs : list Event) (w : World) : stuck w -> stuck (run w evs).
Proof.
  revert w. induction evs as [|e evs IH]; intros w H; simpl; trivial.
  apply IH. now apply step_stuck.
Qed.

(** C2, where the code departs from it: in FLASH mode with the flag clear,
    a tick whose canvas gives no 2D context sets the flag and returns
    before the [try], so that the [finally] never clears it; whatever
    events follow, the flag stays set, no tick passes the guard and the
    detector is never called. *)
Theorem flag_stuck_without_context (evs : list Event) :
  let w := processFrame frameWithoutContext (setMode FLASH initial) in
  isProcessing w = true /\ inflight w = [] /\
  isProcessing (run w evs) = true /\
  calls (trace (run w evs)) = [] /\
  (forall dom, processFrame dom (run w evs) = run w evs).
Proof.
  intros w.
  assert (H0 : stuck w) by (repeat split).
  destruct (run_stuck evs w H0) as (Hb & Hi & Hc).
  repeat split; trivial.
  intros dom. now apply processFrame_busy.
Qed.

(** *** The alert and its timeouts *)

Lemma fireTimeout_early (i : nat) (t : Timeout) (w : World) :
  nth_error (timeouts w) i = Some t ->
  clock w < scheduledAt t + delay t ->
  fireTimeout i w = w.
Proof.
  intros Hi Hlt. unfold fireTimeout. rewrite Hi.
  apply N.leb_gt in Hlt. now rewrite Hlt.
Qed.

Lemma fireTimeout_due (i : nat) (t : Timeout) (w : World) :
  nth_error (timeouts w) i = Some t ->
  scheduledAt t + delay t <= clock w ->
  fireTimeout i w = setDetectedRecently None (setTimeouts (dropNth i (timeouts w)) w).
Proof.
  intros Hi Hle. unfold fireTimeout. rewrite Hi.
  apply N.leb_le in Hle. now rewrite Hle.
Qed.

Lemma forEachDetected_calm (ps : list Plate) (detected : list Json) (w : World) :
  forallb (fun num => negb (contains (normalizePlate num) ps))
    (stringPrefix detected) = true ->
  detectedRecently (fst (forEachDetected ps detected w)) = detectedRecently w /\
  timeouts (fst (forEachDetected ps detected w)) = timeouts w.
Proof.
  revert w. induction detected as [|d detected IH]; intros w H; [now split|].
  destruct d; try (now split).
  simpl in H. apply andb_true_iff in H as [Hs H].
  apply negb_true_iff in Hs. simpl.
  destruct (IH (onDetected ps s w) H) as [-> ->].
  unfold onDetected. now rewrite Hs.
Qed.

Lemma afterDetect_calm (ps : list Plate) (r : Logged (list Json)) (w : World) :
  forallb (fun num => negb (contains (normalizePlate num) ps))
    (stringPrefix (snd r)) = true ->
  detectedRecently (afterDetect ps r w) = detectedRecently w /\
  timeouts (afterDetect ps r w) = timeouts w.
Proof.
  intros H. unfold afterDetect. rewrite emits_eq.
  set (w1 := mkWorld _ _ _ _ _ _ _ _ _ _).
  pose proof (forEachDetected_calm ps (snd r) w1 H) as [Hd Ht].
  destruct (forEachDetected ps (snd r) w1) as [w2 threw]. simpl in Hd, Ht.
  now destruct threw.
Qed.

(** An event without a match, before any pending timeout is due, leaves the
    alert and the timeouts alone and moves the clock by what it lets pass. *)
Lemma calm_step (w : World) (e : Event) :
  calmStep w e = true ->
  (forall t, In t (timeouts w) -> clock w < scheduledAt t + delay t) ->
  detectedRecently (step w e) = detectedRecently w /\
  timeouts (step w e) = timeouts w /\
  clock (step w e) = clock w + elapsed [e].
Proof.
  intros Hq Hdue. destruct e; simpl;
    rewrite ?N.add_0_r; try (repeat split; fail).
  - destruct (processFrame_frame dom w) as (_ & _ & _ & _ & Hd & Hc & Ht).
    auto.
  - unfold settle. unfold calmStep in Hq.
    destruct (inflight w) as [|p rest]; [repeat split|].
    destruct (afterDetect_calm (closure_plates p) (continuation p o)
                (setInflight rest w) Hq) as [Hd Ht].
    destruct (afterDetect_fields (closure_plates p) (continuation p o)
                (setInflight rest w)) as (_ & _ & _ & _ & Hc & _).
    auto.
  - unfold fireTimeout. destruct (nth_error (timeouts w) i) as [t|] eqn:E;
      [|repeat split].
    replace (scheduledAt t + delay t <=? clock w) with false; [repeat split|].
    symmetry. apply N.leb_gt, Hdue. eapply nth_error_In, E.
  - unfold addPlate. destruct (_ <? _)%nat; [repeat split|].
    destruct (contains _ _); repeat split.
Qed.

Lemma calm_run (evs : list Event) (w : World) :
  calm w evs = true ->
  (forall t, In t (timeouts w) -> clock w + elapsed evs < scheduledAt t + delay t) ->
  detectedRecently (run w evs) = detectedRecently w /\
  timeouts (run w evs) = timeouts w.
Proof.
  revert w. induction evs as [|e evs IH]; intros w Hq Hdue; [now split|].
  simpl in Hq. apply andb_true_iff in Hq as [He Hq].
  assert (Hsplit : elapsed (e :: evs) = elapsed [e] + elapsed evs).
  { destruct e; simpl; lia. }
  destruct (calm_step w e He) as (Hd & Ht & Hc).
  { intros t Hin. specialize (Hdue t Hin). lia. }
  change (run w (e :: evs)) with (run (step w e) evs).
  destruct (IH (step w e) Hq) as [Hd' Ht'].
  { intros t Hin. rewrite Ht in Hin. specialize (Hdue t Hin).
    rewrite Hc. lia. }
  split; congruence.
Qed.

Lemma onDetected_match (ps : list Plate) (num : jsstring) (w : World) :
  contains (normalizePlate num) ps = true ->
  onDetected ps num w =
  setTimeout 5000
    (setDetectedRecently (Some (normalizePlate num))
       (emit AudioPlay
          (setSessionLog (fun prev => firstn 10 (logEntryOf ps (clock w) num :: prev)) w))).
Proof. intros H. unfold onDetected, logEntryOf. now rewrite H. Qed.

Lemma onDetected_no_match (ps : list Plate) (num : jsstring) (w : World) :
  contains (normalizePlate num) ps = false ->
  onDetected ps num w =
  setSessionLog (fun prev => firstn 10 (logEntryOf ps (clock w) num :: prev)) w.
Proof. intros H. unfold onDetected, logEntryOf. now rewrite H. Qed.

(** C3, as the code has it: a detection that matches writes its token to
    AlertState and schedules a clear 5 seconds later, beside the clears
    already pending, none of which is cancelled; a detection that does not
    match neither writes AlertState nor touches a timeout; a clear does
    nothing before its own delay has passed and clears AlertState, whatever
    token it holds, once it has; so, through events that bring no new
    match, the token stays until the earliest pending clear is due, which is
    5 seconds later when no clear was pending at the match. *)
Theorem alert_window (ps : list Plate) (num : jsstring) (w : World) :
  contains (normalizePlate num) ps = true ->
  detectedRecently (onDetected ps num w) = Some (normalizePlate num) /\
  timeouts (onDetected ps num w) = timeouts w ++ [mkTimeout (clock w) 5000] /\
  (forall ps' num' w', contains (normalizePlate num') ps' = false ->
     detectedRecently (onDetected ps' num' w') = detectedRecently w' /\
     timeouts (onDetected ps' num' w') = timeouts w') /\
  (forall i t w', nth_error (timeouts w') i = Some t ->
     (clock w' < scheduledAt t + delay t -> fireTimeout i w' = w') /\
     (scheduledAt t + delay t <= clock w' ->
      detectedRecently (fireTimeout i w') = None)) /\
  (forall evs, calm (onDetected ps num w) evs = true ->
     (forall t, In t (timeouts w) -> clock w + elapsed evs < scheduledAt t + delay t) ->
     elapsed evs < 5000 ->
     detectedRecently (run (onDetected ps num w) evs) = Some (normalizePlate num)) /\
  (timeouts w = [] -> windowReset (onDetected ps num w) (normalizePlate num)).
Proof.
  intros Hm.
  assert (Hkeep : forall evs, calm (onDetected ps num w) evs = true ->
     (forall t, In t (timeouts w) -> clock w + elapsed evs < scheduledAt t + delay t) ->
     elapsed evs < 5000 ->
     detectedRecently (run (onDetected ps num w) evs) = Some (normalizePlate num)).
  { intros evs Hq Hpending Hlt.
    destruct (calm_run evs (onDetected ps num w) Hq) as [Hd _].
    - rewrite onDetected_match by exact Hm. simpl.
      intros t Hin. apply in_app_or in Hin as [Hin | [<- | []]].
      + now apply Hpending.
      + simpl. lia.
    - rewrite Hd, onDetected_match by exact Hm. reflexivity. }
  repeat split.
  - rewrite onDetected_match by exact Hm. reflexivity.
  - rewrite onDetected_match by exact Hm. reflexivity.
  - rewrite onDetected_no_match by assumption. reflexivity.
  - rewrite onDetected_no_match by assumption. reflexivity.
  - now apply fireTimeout_early.
  - intros Hle. erewrite fireTimeout_due by eassumption. reflexivity.
  - exact Hkeep.
  - intros Hnone evs Hq Hlt. apply Hkeep; trivial.
    rewrite Hnone. intros t [].
Qed.

(** *** Results that arrive late *)

Lemma onDetected_setMode (ps : list Plate) (num : jsstring) (m : AppMode) (w : World) :
  onDetected ps num (setMode m w) = setMode m (onDetected ps num w).
Proof.
  unfold onDetected. now destruct (contains (normalizePlate num) ps).
Qed.

Lemma forEachDetected_setMode (ps : list Plate) (detected : list Json)
    (m : AppMode) (w : World) :
  forEachDetected ps detected (setMode m w) =
  (setMode m (fst (forEachDetected ps detected w)),
   snd (forEachDetected ps detected w)).
Proof.
  revert w. induction detected as [|d detected IH]; intros w; simpl;
    [reflexivity|].
  destruct d; try reflexivity.
  rewrite onDetected_setMode. apply IH.
Qed.

Lemma afterDetect_setMode (ps : list Plate) (r : Logged (list Json))
    (m : AppMode) (w : World) :
  afterDetect ps r (setMode m w) = setMode m (afterDetect ps r w).
Proof.
  unfold afterDetect. rewrite !emits_eq.
  set (w1 := mkWorld _ _ _ _ _ _ _ _ _ (trace w ++ fst r)).
  change (mkWorld _ _ _ _ _ _ _ _ _ (trace (setMode m w) ++ fst r))
    with (setMode m w1).
  rewrite forEachDetected_setMode.
  destruct (forEachDetected ps (snd r) w1) as [w2 threw]. simpl.
  now destruct threw.
Qed.

(** C4, as the code has it: the mode is read when a tick starts and not
    when the result arrives.  Leaving FLASH before the pending call settles
    changes nothing in what the result does: the world is the one reached
    by settling first and switching afterwards; so a matching plate that
    arrives in LIST mode is logged, written to AlertState and played. *)
Theorem late_result_applied (w : World) (m : AppMode) (o : ServiceOutcome) :
  step (step w (SwitchMode m)) (Settle o) = step (step w (Settle o)) (SwitchMode m) /\
  (forall ps k rest num,
     inflight w = mkInflight ps k :: rest ->
     k o = ([], [JString num]) ->
     contains (normalizePlate num) ps = true ->
     let w' := step (step w (SwitchMode m)) (Settle o) in
     mode w' = m /\
     sessionLog w' = firstn 10 (logEntryOf ps (clock w) num :: sessionLog w) /\
     detectedRecently w' = Some (normalizePlate num) /\
     trace w' = trace w ++ [AudioPlay]).
Proof.
  assert (E : step (step w (SwitchMode m)) (Settle o) =
              step (step w (Settle o)) (SwitchMode m)).
  { simpl. unfold settle. simpl inflight.
    destruct (inflight w) as [|p rest]; [reflexivity|].
    change (setInflight rest (setMode m w)) with (setMode m (setInflight rest w)).
    apply afterDetect_setMode. }
  split; [exact E|].
  intros ps k rest num Hin Hk Hm w'. subst w'. rewrite E.
  simpl. unfold settle. rewrite Hin. simpl. rewrite Hk.
  unfold afterDetect. simpl. rewrite onDetected_match by exact Hm.
  repeat split.
Qed.

(** ** More on the normalizer and the store *)

Lemma toUpperCase_cons_ascii (c : N) (s : jsstring) :
  (c <? 128) = true -> toUpperCase (c :: s) = upperCodePoint c ++ toUpperCase s.
Proof.
  intros H. simpl. destruct s as [|d s']; [now rewrite app_nil_r|].
  replace (is_high_surrogate c) with false; [reflexivity|].
  symmetry. revert H. unfold is_high_surrogate. code_unit_cases.
Qed.

Lemma upperCodePoint_ascii (c : N) :
  (c <? 128) = true -> upperCodePoint c = [asciiUpper c].
Proof.
  intros H. unfold upperCodePoint, asciiUpper.
  destruct (is_ascii_lower c); [reflexivity|]. now rewrite H.
Qed.

Lemma toUpperCase_ascii_app (a b : jsstring) :
  isAscii a = true -> toUpperCase (a ++ b) = map asciiUpper a ++ toUpperCase b.
Proof.
  induction a as [|c a IH]; intros H; [reflexivity|].
  apply andb_true_iff in H as [Hc Ha]. simpl app.
  rewrite toUpperCase_cons_ascii, upperCodePoint_ascii, IH by assumption.
  reflexivity.
Qed.

(** The fixed points of the normalizer are the strings of [[A-Z0-9]]
    characters: a string is returned as it is if and only if it holds only
    such characters. *)
Theorem normalizePlate_fixed_points (s : jsstring) :
  normalizePlate s = s <-> forallb is_AZ09 s = true.
Proof.
  split.
  - intros E. rewrite <- E. apply normalizePlate_AZ09.
  - intros H. unfold normalizePlate. rewrite toUpperCase_AZ09 by exact H.
    now apply forallb_filter_id.
Qed.

(** On ASCII input the normalizer does not depend on the platform's case
    tables: it upper-cases the letters a-z, keeps A-Z and 0-9 and drops every
    other character; and after an ASCII prefix it works piece by piece, so
    that dashes and spaces between the pieces change nothing. *)
Theorem normalizePlate_ascii (a b : jsstring) :
  isAscii a = true ->
  normalizePlate a = filter is_AZ09 (map asciiUpper a) /\
  normalizePlate (a ++ b) = normalizePlate a ++ normalizePlate b.
Proof.
  intros H. unfold normalizePlate.
  pose proof (toUpperCase_ascii_app a [] H) as E0.
  rewrite app_nil_r in E0. simpl in E0. rewrite app_nil_r in E0.
  rewrite E0, toUpperCase_ascii_app, filter_app by exact H. now split.
Qed.

Lemma contains_cons_same (token : jsstring) (p : Plate) (ps : list Plate) :
  number p = token -> contains token (p :: ps) = true.
Proof.
  intros <-. unfold contains. simpl.
  replace (str_eqb (number p) (number p)) with true; [reflexivity|].
  symmetry. now apply str_eqb_eq.
Qed.

Lemma addPlate_contains (uuid : jsstring) (w : World) :
  (4 <= List.length (normalizePlate (newPlate w)))%nat ->
  contains (normalizePlate (newPlate w)) (plates (addPlate uuid w)) = true.
Proof.
  intros Hlen.
  destruct (contains (normalizePlate (newPlate w)) (plates w)) eqn:Hc.
  - now rewrite addPlate_duplicate.
  - rewrite (addPlate_fresh uuid w Hlen Hc). cbn [plates setNewPlate setPlates].
    now apply contains_cons_same.
Qed.

(** After [addPlate] with an input whose token has 4 characters or more, the
    token is in the store, whether the call stored it or found it there. *)
Theorem add_then_contains (uuid : jsstring) (w : World) :
  (4 <= List.length (normalizePlate (newPlate w)))%nat ->
  contains (normalizePlate (newPlate w)) (plates (addPlate uuid w)) = true.
Proof.
  intros Hlen. unfold addPlate.
  replace (List.length (normalizePlate (newPlate w)) <? 4)%nat with false
    by (symmetry; now apply Nat.ltb_ge).
  destruct (contains (normalizePlate (newPlate w)) (plates w)) eqn:Hc.
  - exact Hc.
  - cbn [plates setNewPlate setPlates]. now apply contains_cons_same.
Qed.

(** Adding twice never stores twice: when two inputs have the same token,
    however they are written, the second [addPlate] fails with an alert and
    leaves the store as the first one left it. *)
Theorem add_twice_rejected (uuid1 uuid2 raw raw' : jsstring) (w : World) :
  normalizePlate raw = normalizePlate raw' ->
  validationError
    (setNewPlate raw' (addPlate uuid1 (setNewPlate raw w)))
    (addPlate uuid2 (setNewPlate raw' (addPlate uuid1 (setNewPlate raw w)))) /\
  plates (addPlate uuid2 (setNewPlate raw' (addPlate uuid1 (setNewPlate raw w)))) =
  plates (addPlate uuid1 (setNewPlate raw w)).
Proof.
  intros E.
  set (w1 := addPlate uuid1 (setNewPlate raw w)).
  assert (H : validationError (setNewPlate raw' w1) (addPlate uuid2 (setNewPlate raw' w1))).
  { destruct (Nat.lt_ge_cases (List.length (normalizePlate raw')) 4) as [Hs|Hl].
    - eexists. now apply addPlate_too_short.
    - eexists. apply addPlate_duplicate; [exact Hl|].
      simpl newPlate. simpl plates. rewrite <- E.
      apply (addPlate_contains uuid1 (setNewPlate raw w)).
      simpl newPlate. now rewrite E. }
  split; [exact H|]. destruct H as [msg ->]. reflexivity.
Qed.

Lemma filter_all {A : Type} (f : A -> bool) (l : list A) :
  (forall x, In x l -> f x = true) -> filter f l = l.
Proof. intros H. now apply forallb_filter_id, forallb_forall. Qed.

(** [addPlate] with an id that no plate has, followed by [removePlate] of
    that id, gives the store back as it was, whether the plate was stored or
    refused. *)
Theorem add_then_remove (uuid : jsstring) (w : World) :
  (forall p, In p (plates w) -> id p <> uuid) ->
  plates (removePlate uuid (addPlate uuid w)) = plates w.
Proof.
  intros Hfresh.
  assert (Hkeep : filter (fun p => negb (str_eqb (id p) uuid)) (plates w) = plates w).
  { apply filter_all. intros p Hp. apply negb_true_iff, str_eqb_neq. now apply Hfresh. }
  simpl. destruct (addPlate_plates uuid w) as [-> | [_ ->]]; [exact Hkeep|].
  simpl. replace (str_eqb uuid uuid) with true by (symmetry; now apply str_eqb_eq).
  exact Hkeep.
Qed.

Lemma filter_comm {A : Type} (f g : A -> bool) (l : list A) :
  filter f (filter g l) = filter g (filter f l).
Proof.
  induction l as [|x l IH]; [reflexivity|]. simpl.
  destruct (f x) eqn:Ef, (g x) eqn:Eg; simpl; rewrite ?Ef, ?Eg, IH; reflexivity.
Qed.

Lemma filter_idem {A : Type} (f : A -> bool) (l : list A) :
  filter f (filter f l) = filter f l.
Proof. apply filter_all. intros x Hx. now apply filter_In in Hx. Qed.

(** [removePlate] removes exactly the plates with the given id and keeps the
    others: a plate is in the store afterwards if and only if it was there
    and has another id; the store never grows; removing the same id again
    changes nothing, and two removals can be done in either order. *)
Theorem removePlate_exact (a b : jsstring) (w : World) :
  (forall p, In p (plates (removePlate a w)) <-> In p (plates w) /\ id p <> a) /\
  (List.length (plates (removePlate a w)) <= List.length (plates w))%nat /\
  removePlate a (removePlate a w) = removePlate a w /\
  removePlate a (removePlate b w) = removePlate b (removePlate a w).
Proof.
  split; [|split; [|split]].
  - intros p. simpl. rewrite filter_In, negb_true_iff, str_eqb_neq. reflexivity.
  - simpl. apply filter_length_le.
  - unfold removePlate. simpl. now rewrite filter_idem.
  - unfold removePlate. simpl. now rewrite filter_comm.
Qed.

(** ** More on the capture loop *)

Lemma onDetected_setPlates (ps v : list Plate) (num : jsstring) (w : World) :
  onDetected ps num (setPlates v w) = setPlates v (onDetected ps num w).
Proof.
  unfold onDetected. now destruct (contains (normalizePlate num) ps).
Qed.

Lemma forEachDetected_setPlates (ps v : list Plate) (detected : list Json) (w : World) :
  forEachDetected ps detected (setPlates v w) =
  (setPlates v (fst (forEachDetected ps detected w)),
   snd (forEachDetected ps detected w)).
Proof.
  revert w. induction detected as [|d detected IH]; intros w; simpl;
    [reflexivity|].
  destruct d; try reflexivity.
  rewrite onDetected_setPlates. apply IH.
Qed.

Lemma afterDetect_setPlates (ps v : list Plate) (r : Logged (list Json)) (w : World) :
  afterDetect ps r (setPlates v w) = setPlates v (afterDetect ps r w).
Proof.
  unfold afterDetect. rewrite !emits_eq.
  set (w1 := mkWorld _ _ _ _ _ _ _ _ _ (trace w ++ fst r)).
  change (mkWorld _ _ _ _ _ _ _ _ _ (trace (setPlates v w) ++ fst r))
    with (setPlates v w1).
  rewrite forEachDetected_setPlates.
  destruct (forEachDetected ps (snd r) w1) as [w2 threw]. simpl.
  now destruct threw.
Qed.

(** A result is matched against the store as it was when its tick started:
    removing a plate while the call is pending commutes with the arrival of
    the result, so that a plate removed in the meantime still raises the
    alert when the result names it. *)
Theorem remove_while_pending (w : World) (id0 : jsstring) (o : ServiceOutcome) :
  step (step w (ClickRemove id0)) (Settle o) =
  step (step w (Settle o)) (ClickRemove id0) /\
  (forall ps k rest num,
     inflight w = mkInflight ps k :: rest ->
     k o = ([], [JString num]) ->
     contains (normalizePlate num) ps = true ->
     detectedRecently (step (step w (ClickRemove id0)) (Settle o)) =
     Some (normalizePlate num)).
Proof.
  assert (E : step (step w (ClickRemove id0)) (Settle o) =
              step (step w (Settle o)) (ClickRemove id0)).
  { simpl. unfold settle. simpl inflight.
    destruct (inflight w) as [|p rest]; [reflexivity|].
    unfold removePlate at 1.
    change (setInflight rest (setPlates ?v w)) with (setPlates v (setInflight rest w)).
    rewrite afterDetect_setPlates. unfold removePlate.
    now destruct (afterDetect_fields (closure_plates p) (continuation p o)
                    (setInflight rest w)) as (-> & _). }
  split; [exact E|].
  intros ps k rest num Hin Hk Hm. rewrite E.
  simpl. unfold settle. rewrite Hin. simpl. rewrite Hk.
  unfold afterDetect. simpl. rewrite onDetected_match by exact Hm.
  reflexivity.
Qed.

Lemma fold_onDetected_matches (ps : list Plate) (nums : list jsstring) (w : World) :
  let w' := fold_left (fun acc n => onDetected ps n acc) nums w in
  trace w' = trace w ++ repeat AudioPlay (List.length (matching ps nums)) /\
  timeouts w' =
    timeouts w ++ repeat (mkTimeout (clock w) 5000) (List.length (matching ps nums)) /\
  detectedRecently w' =
    match rev (matching ps nums) with
    | [] => detectedRecently w
    | num :: _ => Some (normalizePlate num)
    end.
Proof.
  revert w. induction nums as [|n nums IH]; intros w.
  - simpl. rewrite !app_nil_r. now repeat split.
  - cbn [fold_left]. cbv zeta in IH |- *.
    destruct (IH (onDetected ps n w)) as (Ht & Hto & Hd).
    rewrite Ht, Hto, Hd. unfold matching in *. cbn [filter].
    destruct (contains (normalizePlate n) ps) eqn:Hm.
    + rewrite onDetected_match by exact Hm. cbn [trace timeouts detectedRecently
        clock setTimeout setTimeouts setDetectedRecently emit setSessionLog
        List.length repeat rev].
      rewrite <- !app_assoc. repeat split.
      now destruct (rev (filter _ nums)).
    + rewrite onDetected_no_match by exact Hm. now repeat split.
Qed.

(** What a result of plates does, counted: one sound and one clear, 5
    seconds ahead, for every detection that matches, with nothing else added
    to the trace; and AlertState ends with the last detection that matches,
    or as it was when none does. *)
Theorem match_accounting (ps : list Plate) (nums : list jsstring) (w : World) :
  trace (afterDetect ps ([], map JString nums) w) =
    trace w ++ repeat AudioPlay (List.length (matching ps nums)) /\
  timeouts (afterDetect ps ([], map JString nums) w) =
    timeouts w ++ repeat (mkTimeout (clock w) 5000) (List.length (matching ps nums)) /\
  detectedRecently (afterDetect ps ([], map JString nums) w) =
    match rev (matching ps nums) with
    | [] => detectedRecently w
    | num :: _ => Some (normalizePlate num)
    end.
Proof.
  unfold afterDetect. cbn [fst snd fold_left].
  rewrite forEachDetected_strings.
  apply (fold_onDetected_matches ps nums w).
Qed.

Lemma forEachDetected_malformed (ps : list Plate) (nums : list jsstring)
    (bad : Json) (rest : list Json) (w : World) :
  isString bad = false ->
  forEachDetected ps (map JString nums ++ bad :: rest) w =
  (fst (forEachDetected ps (map JString nums) w), true).
Proof.
  intros Hbad. revert w. induction nums as [|n nums IH]; intros w; simpl.
  - now destruct bad.
  - apply IH.
Qed.

(** An element of the result that is not a string ends the loop over the
    result: the plates before it are handled as usual, the elements after it
    are dropped, even those that would match, and the only further effect is
    one console error. *)
Theorem malformed_element (ps : list Plate) (effs : list Effect)
    (nums : list jsstring) (bad : Json) (rest : list Json) (w : World) :
  isString bad = false ->
  afterDetect ps (effs, map JString nums ++ bad :: rest) w =
  emit ConsoleError (afterDetect ps (effs, map JString nums) w).
Proof.
  intros Hbad. unfold afterDetect. cbn [fst snd].
  rewrite forEachDetected_malformed by exact Hbad.
  rewrite forEachDetected_strings. reflexivity.
Qed.

(** What the detector makes of the service's answer: it logs at most one
    console error, exactly when the [try] block throws, and then returns the
    empty list; and it returns plates only when the text parses to an object
    whose [plates] is an array, which it returns as it is. *)
Theorem detector_answer (o : ServiceOutcome) :
  (tryGenerateContent o = Throw -> afterGenerateContent o = ([ConsoleError], [])) /\
  (tryGenerateContent o <> Throw -> fst (afterGenerateContent o) = []) /\
  (snd (afterGenerateContent o) <> [] ->
   exists text fields,
     o = Response (Some text) /\
     JSON_parse (trim text) = Some (JObject fields) /\
     getField (js "plates") fields = Some (JArray (snd (afterGenerateContent o)))).
Proof.
  unfold afterGenerateContent. split; [|split].
  - now intros ->.
  - destruct (tryGenerateContent o); [reflexivity | congruence].
  - unfold tryGenerateContent.
    destruct o as [|[text|]]; simpl; try congruence.
    destruct (List.length text =? 0)%nat; simpl; try congruence.
    destruct (JSON_parse (trim text)) as [[| | | |items|fields]|] eqn:Ep;
      simpl; try congruence.
    destruct (getField (js "plates") fields) as [[| | | |items|fs]|] eqn:Ef;
      simpl; try congruence.
    intros _. now exists text, fields.
Qed.

(** Whatever the service answers, well formed or not, the arrival of the
    answer clears the flag and takes the call off the pending ones, and
    writes neither the store, the mode, the input nor the clock; with
    nothing left pending, the next tick in FLASH mode that has a frame calls
    the detector again. *)
Theorem settle_resumes (w : World) (p : Inflight) (rest : list Inflight)
    (o : ServiceOutcome) :
  inflight w = p :: rest ->
  isProcessing (step w (Settle o)) = false /\
  inflight (step w (Settle o)) = rest /\
  plates (step w (Settle o)) = plates w /\
  mode (step w (Settle o)) = mode w /\
  newPlate (step w (Settle o)) = newPlate w /\
  clock (step w (Settle o)) = clock w /\
  (forall data, mode w = FLASH -> (50 <= List.length data)%nat -> ~ In 44 data ->
     calls (trace (step (step w (Settle o)) (Tick (frameWith data)))) =
     calls (trace (step w (Settle o))) ++ [GenerateContent data]).
Proof.
  intros Hin. simpl step at 1 2 3 4 5 6. unfold settle. rewrite Hin.
  destruct (afterDetect_fields (closure_plates p) (continuation p o)
              (setInflight rest w)) as (Hp & Hm & Hn & Hb & Hc & Hi).
  repeat split; trivial.
  intros data Hmode Hlen Hcomma.
  simpl step. unfold settle. rewrite Hin.
  rewrite processFrame_calls; trivial; [|now rewrite Hm].
  simpl. unfold calls. now rewrite filter_app.
Qed.

(** A tick writes neither the store, the mode, the input, the session log,
    AlertState, the clock nor the timeouts; and it does nothing at all when
    the mode is not FLASH, when the flag is set, when the video or the canvas
    is not there, or when the video has not enough data. *)
Theorem tick_guards (dom : Dom) (w : World) :
  (plates (processFrame dom w) = plates w /\
   mode (processFrame dom w) = mode w /\
   newPlate (processFrame dom w) = newPlate w /\
   sessionLog (processFrame dom w) = sessionLog w /\
   detectedRecently (processFrame dom w) = detectedRecently w /\
   clock (processFrame dom w) = clock w /\
   timeouts (processFrame dom w) = timeouts w) /\
  (mode w <> FLASH \/ isProcessing w = true \/
   videoRef dom = None \/ canvasRef dom = None \/
   (exists video, videoRef dom = Some video /\ readyState video <> HAVE_ENOUGH_DATA) ->
   processFrame dom w = w).
Proof.
  split; [apply processFrame_frame|].
  unfold processFrame.
  intros [Hm | [Hb | [Hv | [Hc | [video [Hv Hr]]]]]].
  - replace (mode_eqb (mode w) FLASH) with false
      by (destruct (mode w); [reflexivity | congruence]).
    simpl. rewrite orb_true_r.
    destruct (videoRef dom); [|reflexivity]. now destruct (canvasRef dom).
  - now apply processFrame_busy.
  - now rewrite Hv.
  - rewrite Hc. now destruct (videoRef dom).
  - rewrite Hv. destruct (canvasRef dom); [|reflexivity].
    destruct (isProcessing w || negb (mode_eqb (mode w) FLASH)); [reflexivity|].
    apply N.eqb_neq in Hr. now rewrite Hr.
Qed.

(** ** Invariants of whole runs *)

(** What a tick can do: nothing; set the flag and stop (no context); set and
    clear the flag (no payload worth a call); or call the detector, which it
    does only in FLASH mode, with the flag clear and 50 code units or more. *)
Lemma processFrame_cases (dom : Dom) (w : World) :
  processFrame dom w = w \/
  processFrame dom w = setIsProcessing true w \/
  processFrame dom w = setIsProcessing false w \/
  exists data,
    (50 <= List.length data)%nat /\ isProcessing w = false /\ mode w = FLASH /\
    processFrame dom w =
    emit (GenerateContent data)
      (setInflight (inflight w ++ [mkInflight (plates w) afterGenerateContent])
         (setIsProcessing true w)).
Proof.
  unfold processFrame.
  destruct (videoRef dom) as [video|]; [|now left].
  destruct (canvasRef dom) as [canvas|]; [|now left].
  destruct (isProcessing w) eqn:Eb; [now left|]. simpl orb.
  destruct (mode w) eqn:Em; [now left|]. simpl.
  destruct (negb (readyState video =? HAVE_ENOUGH_DATA)); [now left|].
  destruct (negb (context2d canvas)); [now right; left|].
  destruct (detectPlatesFromImage _) as [r|data k] eqn:E.
  - apply detect_resolved in E. subst r. right; right; left. reflexivity.
  - apply detect_awaiting in E as (_ & -> & Hlen).
    right; right; right. exists data. now repeat split.
Qed.

Lemma onDetected_calls (ps : list Plate) (num : jsstring) (w : World) :
  calls (trace (onDetected ps num w)) = calls (trace w).
Proof.
  unfold onDetected. destruct (contains (normalizePlate num) ps); [|reflexivity].
  simpl. unfold calls. rewrite filter_app. simpl. apply app_nil_r.
Qed.

Lemma forEachDetected_calls (ps : list Plate) (detected : list Json) (w : World) :
  calls (trace (fst (forEachDetected ps detected w))) = calls (trace w).
Proof.
  revert w. induction detected as [|d detected IH]; intros w; [reflexivity|].
  destruct d; try reflexivity. simpl. rewrite IH. apply onDetected_calls.
Qed.

Lemma afterDetect_calls (ps : list Plate) (r : Logged (list Json)) (w : World) :
  calls (fst r) = [] ->
  calls (trace (afterDetect ps r w)) = calls (trace w).
Proof.
  intros Hr. unfold afterDetect. rewrite emits_eq.
  set (w1 := mkWorld _ _ _ _ _ _ _ _ _ _).
  pose proof (forEachDetected_calls ps (snd r) w1) as H.
  destruct (forEachDetected ps (snd r) w1) as [w2 threw]. cbn [fst] in H.
  assert (H1 : calls (trace w1) = calls (trace w)).
  { unfold w1. simpl trace. unfold calls in *. now rewrite filter_app, Hr, app_nil_r. }
  destruct threw; simpl; [|congruence].
  unfold calls in *. rewrite filter_app. simpl. rewrite app_nil_r. congruence.
Qed.

Lemma afterGenerateContent_calls (o : ServiceOutcome) :
  calls (fst (afterGenerateContent o)) = [].
Proof. unfold afterGenerateContent. now destruct (tryGenerateContent o). Qed.

Lemma step_pendingOK (w : World) (e : Event) : pendingOK w -> pendingOK (step w e).
Proof.
  unfold pendingOK. intros Hw. destruct e; simpl; trivial.
  - destruct (processFrame_cases dom w) as [-> | [-> | [-> | (data & _ & _ & _ & ->)]]];
      trivial.
    simpl. apply Forall_app. split; [exact Hw | now constructor].
  - unfold settle. destruct (inflight w) as [|p rest] eqn:E; [now rewrite E|].
    destruct (afterDetect_fields (closure_plates p) (continuation p o)
                (setInflight rest w)) as (_ & _ & _ & _ & _ & ->).
    simpl. now inversion Hw.
  - unfold fireTimeout. destruct (nth_error _ _); trivial.
    now destruct (_ <=? _).
  - unfold addPlate. destruct (_ <? _)%nat; trivial.
    now destruct (contains _ _).
Qed.

(** The calls in the trace after an event: those before, and after a tick
    that calls, one more. *)
Lemma step_calls (w : World) (e : Event) :
  pendingOK w ->
  (calls (trace (step w e)) = calls (trace w) /\
   List.length (inflight w) =
   (settledRun w [e] + List.length (inflight (step w e)))%nat) \/
  (exists data,
     (50 <= List.length data)%nat /\ isProcessing w = false /\ mode w = FLASH /\
     calls (trace (step w e)) = calls (trace w) ++ [GenerateContent data] /\
     settledRun w [e] = 0%nat /\
     List.length (inflight (step w e)) = S (List.length (inflight w))).
Proof.
  intros Hw. destruct e; cbn [step settledRun]; try (left; now split).
  - destruct (processFrame_cases dom w) as [-> | [-> | [-> | (data & Hl & Hb & Hm & ->)]]];
      try (left; now split).
    right. exists data. repeat split; trivial.
    + simpl. unfold calls. rewrite filter_app. reflexivity.
    + simpl. rewrite length_app. simpl. lia.
  - left. unfold settle. destruct (inflight w) as [|p rest] eqn:E; [now rewrite E|].
    unfold pendingOK in Hw. rewrite E in Hw. inversion Hw as [|? ? Hp _]; subst.
    rewrite afterDetect_calls by (rewrite Hp; apply afterGenerateContent_calls).
    destruct (afterDetect_fields (closure_plates p) (continuation p o)
                (setInflight rest w)) as (_ & _ & _ & _ & _ & ->).
    now split.
  - left. unfold fireTimeout. destruct (nth_error _ _); [|now split].
    destruct (_ <=? _); now split.
  - left. unfold addPlate. destruct (_ <? _)%nat.
    + split; [|reflexivity]. simpl. unfold calls. rewrite filter_app. simpl.
      apply app_nil_r.
    + destruct (contains _ _); [|now split].
      split; [|reflexivity]. simpl. unfold calls. rewrite filter_app. simpl.
      apply app_nil_r.
Qed.

Lemma settledRun_cons (w : World) (e : Event) (evs : list Event) :
  settledRun w (e :: evs) = (settledRun w [e] + settledRun (step w e) evs)%nat.
Proof.
  simpl. destruct e; try reflexivity. now destruct (inflight w).
Qed.

Lemma run_calls (evs : list Event) (w : World) :
  pendingOK w ->
  (List.length (calls (trace (run w evs))) + List.length (inflight w) =
   List.length (calls (trace w)) + settledRun w evs
   + List.length (inflight (run w evs)))%nat /\
  (Forall (fun e => exists data, e = GenerateContent data /\
                                 (50 <= List.length data)%nat) (calls (trace w)) ->
   Forall (fun e => exists data, e = GenerateContent data /\
                                 (50 <= List.length data)%nat)
     (calls (trace (run w evs)))).
Proof.
  revert w. induction evs as [|e evs IH]; intros w Hw.
  - simpl. split; [lia | trivial].
  - change (run w (e :: evs)) with (run (step w e) evs).
    rewrite settledRun_cons.
    destruct (IH (step w e) (step_pendingOK w e Hw)) as [Hn Hf].
    destruct (step_calls w e Hw) as [[Hc Hi] | (data & Hl & _ & _ & Hc & Hs & Hi)].
    + rewrite Hc in Hn, Hf. split; [lia | exact Hf].
    + rewrite Hc in Hn, Hf. rewrite length_app in Hn. simpl in Hn.
      split; [lia|].
      intros H0. apply Hf, Forall_app. split; [exact H0|].
      constructor; [|constructor]. now exists data.
Qed.

Lemma run_singleFlight (evs : list Event) (w : World) :
  singleFlight w -> singleFlight (run w evs).
Proof.
  revert w. induction evs as [|e evs IH]; intros w Hw; simpl; trivial.
  apply IH. now apply step_singleFlight.
Qed.

(** Every call to the detection service is accounted for: after any events,
    the calls made are the answers delivered plus the calls still pending,
    of which there is at most one; and none was made with a payload of fewer
    than 50 code units. *)
Theorem calls_accounted (evs : list Event) :
  List.length (calls (trace (run initial evs))) =
    (settledRun initial evs + List.length (inflight (run initial evs)))%nat /\
  (List.length (calls (trace (run initial evs))) <= S (settledRun initial evs))%nat /\
  Forall (fun e => exists data, e = GenerateContent data /\
                                (50 <= List.length data)%nat)
    (calls (trace (run initial evs))).
Proof.
  destruct (run_calls evs initial) as [Hn Hf]; [constructor|].
  simpl in Hn. split; [lia|]. split; [|apply Hf; constructor].
  destruct (run_singleFlight evs initial (or_introl eq_refl)) as [H | [_ H]];
    rewrite H in Hn; simpl in Hn; lia.
Qed.

Lemma clearsOK_same (w w' : World) :
  timeouts w' = timeouts w -> clock w' = clock w ->
  detectedRecently w' = detectedRecently w ->
  clearsOK w -> clearsOK w'.
Proof. unfold clearsOK. now intros -> -> ->. Qed.

Lemma onDetected_clearsOK (ps : list Plate) (num : jsstring) (w : World) :
  clearsOK w -> clearsOK (onDetected ps num w).
Proof.
  intros [Hf Hd]. destruct (contains (normalizePlate num) ps) eqn:Hm.
  - rewrite onDetected_match by exact Hm. split; simpl.
    + apply Forall_app. split; [exact Hf|].
      constructor; [|constructor]. simpl. split; [reflexivity | lia].
    + intros _ E. now apply app_eq_nil in E as [_ E].
  - rewrite onDetected_no_match by exact Hm. now split.
Qed.

Lemma forEachDetected_clearsOK (ps : list Plate) (detected : list Json) (w : World) :
  clearsOK w -> clearsOK (fst (forEachDetected ps detected w)).
Proof.
  revert w. induction detected as [|d detected IH]; intros w H; [exact H|].
  destruct d; try exact H. simpl. now apply IH, onDetected_clearsOK.
Qed.

Lemma afterDetect_clearsOK (ps : list Plate) (r : Logged (list Json)) (w : World) :
  clearsOK w -> clearsOK (afterDetect ps r w).
Proof.
  intros H. unfold afterDetect. rewrite emits_eq.
  set (w1 := mkWorld _ _ _ _ _ _ _ _ _ _).
  assert (H1 : clearsOK w1) by (now apply (clearsOK_same w)).
  pose proof (forEachDetected_clearsOK ps (snd r) w1 H1) as H2.
  destruct (forEachDetected ps (snd r) w1) as [w2 threw]. cbn [fst] in H2.
  apply (clearsOK_same w2); trivial; now destruct threw.
Qed.

Lemma Forall_dropNth {A : Type} (P : A -> Prop) (i : nat) (l : list A) :
  Forall P l -> Forall P (dropNth i l).
Proof.
  revert i. induction l as [|x l IH]; intros i H; [now destruct i|].
  inversion H; subst. destruct i; simpl; [assumption|]. constructor; auto.
Qed.

Lemma step_clearsOK (w : World) (e : Event) : clearsOK w -> clearsOK (step w e).
Proof.
  intros H. destruct e; simpl.
  - destruct (processFrame_frame dom w) as (_ & _ & _ & _ & Hd & Hc & Ht).
    now apply (clearsOK_same w).
  - unfold settle. destruct (inflight w) as [|p rest]; [exact H|].
    apply afterDetect_clearsOK. now apply (clearsOK_same w).
  - unfold fireTimeout. destruct (nth_error _ _); [|exact H].
    destruct (_ <=? _); [|exact H].
    destruct H as [Hf _]. split; simpl; [|congruence].
    now apply Forall_dropNth.
  - destruct H as [Hf Hd]. split; simpl; [|exact Hd].
    eapply Forall_impl; [|exact Hf]. simpl. intros t [? ?]. split; [assumption | lia].
  - now apply (clearsOK_same w).
  - apply (clearsOK_same w); trivial; unfold addPlate;
      (destruct (_ <? _)%nat; [|destruct (contains _ _)]; reflexivity).
  - now apply (clearsOK_same w).
  - now apply (clearsOK_same w).
Qed.

(** The timeouts of a run are the clears of its matches: each has a delay of
    5 seconds and none is scheduled in the future; and whenever AlertState
    holds a token, a clear for it is pending that is due within 5 seconds,
    so that no alert stays once the timeouts have run. *)
Theorem clears_pending (evs : list Event) :
  Forall (fun t => delay t = 5000 /\ scheduledAt t <= clock (run initial evs))
    (timeouts (run initial evs)) /\
  (detectedRecently (run initial evs) <> None ->
   exists t, In t (timeouts (run initial evs)) /\
             scheduledAt t + delay t <= clock (run initial evs) + 5000).
Proof.
  assert (H : forall w, clearsOK w -> clearsOK (run w evs)).
  { induction evs as [|e evs IH]; intros w Hw; simpl; trivial.
    apply IH. now apply step_clearsOK. }
  destruct (H initial) as [Hf Hd].
  { split; [constructor | simpl; congruence]. }
  split; [exact Hf|].
  intros Hne. specialize (Hd Hne).
  destruct (timeouts (run initial evs)) as [|t ts]; [congruence|].
  exists t. split; [now left|].
  inversion Hf as [|? ? [Hdelay Hsched] _]; subst. lia.
Qed.

Lemma Forall_firstn {A : Type} (P : A -> Prop) (n : nat) (l : list A) :
  Forall P l -> Forall P (firstn n l).
Proof.
  revert n. induction l as [|x l IH]; intros n H; [now destruct n|].
  inversion H; subst. destruct n; simpl; constructor; auto.
Qed.

Lemma contains_tokenOK (token : jsstring) (ps : list Plate) :
  Forall (fun p => tokenOK (number p)) ps ->
  contains token ps = true -> tokenOK token.
Proof.
  intros Hps Hc. apply contains_In in Hc as [p [Hp <-]].
  revert p Hp. now apply Forall_forall.
Qed.

Lemma onDetected_shown (ps : list Plate) (num : jsstring) (w : World) :
  Forall (fun p => tokenOK (number p)) ps ->
  (forall tok, detectedRecently w = Some tok -> tokenOK tok) ->
  Forall (fun e => forallb is_AZ09 (log_number e) = true) (sessionLog w) ->
  (forall tok, detectedRecently (onDetected ps num w) = Some tok -> tokenOK tok) /\
  Forall (fun e => forallb is_AZ09 (log_number e) = true)
    (sessionLog (onDetected ps num w)).
Proof.
  intros Hps Hd Hl. split.
  - destruct (contains (normalizePlate num) ps) eqn:Hm.
    + rewrite onDetected_match by exact Hm. simpl. intros tok [= <-].
      now apply (contains_tokenOK _ ps).
    + rewrite onDetected_no_match by exact Hm. exact Hd.
  - rewrite onDetected_sessionLog. apply Forall_firstn.
    constructor; [apply normalizePlate_AZ09 | exact Hl].
Qed.

Lemma forEachDetected_shown (ps : list Plate) (detected : list Json) (w : World) :
  Forall (fun p => tokenOK (number p)) ps ->
  (forall tok, detectedRecently w = Some tok -> tokenOK tok) ->
  Forall (fun e => forallb is_AZ09 (log_number e) = true) (sessionLog w) ->
  (forall tok, detectedRecently (fst (forEachDetected ps detected w)) = Some tok ->
     tokenOK tok) /\
  Forall (fun e => forallb is_AZ09 (log_number e) = true)
    (sessionLog (fst (forEachDetected ps detected w))).
Proof.
  intros Hps. revert w.
  induction detected as [|d detected IH]; intros w Hd Hl; [now split|].
  destruct d; try (now split). simpl.
  destruct (onDetected_shown ps s w Hps Hd Hl) as [Hd' Hl']. now apply IH.
Qed.

Lemma afterDetect_shown (ps : list Plate) (r : Logged (list Json)) (w : World) :
  Forall (fun p => tokenOK (number p)) ps ->
  (forall tok, detectedRecently w = Some tok -> tokenOK tok) ->
  Forall (fun e => forallb is_AZ09 (log_number e) = true) (sessionLog w) ->
  (forall tok, detectedRecently (afterDetect ps r w) = Some tok -> tokenOK tok) /\
  Forall (fun e => forallb is_AZ09 (log_number e) = true)
    (sessionLog (afterDetect ps r w)).
Proof.
  intros Hps Hd Hl. unfold afterDetect. rewrite emits_eq.
  set (w1 := mkWorld _ _ _ _ _ _ _ _ _ _).
  pose proof (forEachDetected_shown ps (snd r) w1 Hps Hd Hl) as H.
  destruct (forEachDetected ps (snd r) w1) as [w2 threw]. cbn [fst] in H.
  now destruct threw.
Qed.

Lemma step_tokensOK (w : World) (e : Event) : tokensOK w -> tokensOK (step w e).
Proof.
  intros (Hp & Hc & Hd & Hl).
  assert (Hp' : Forall (fun p => tokenOK (number p)) (plates (step w e)))
    by (apply (step_wellFormed w e); exact Hp).
  split; [exact Hp'|]. clear Hp'.
  assert (Hsame : forall w', inflight w' = inflight w ->
            detectedRecently w' = detectedRecently w ->
            sessionLog w' = sessionLog w ->
            Forall (fun c => Forall (fun p => tokenOK (number p)) (closure_plates c))
              (inflight w') /\
            (forall tok, detectedRecently w' = Some tok -> tokenOK tok) /\
            Forall (fun e => forallb is_AZ09 (log_number e) = true) (sessionLog w')).
  { now intros w' -> -> ->. }
  destruct e; simpl; try (now apply Hsame).
  - destruct (processFrame_cases dom w)
      as [-> | [-> | [-> | (data & _ & _ & _ & ->)]]]; try (now apply Hsame).
    simpl. split; [|split; [exact Hd | exact Hl]].
    apply Forall_app. split; [exact Hc | now constructor].
  - unfold settle. destruct (inflight w) as [|p rest] eqn:E; [now apply Hsame|].
    inversion Hc as [|? ? Hcp Hrest]; subst.
    destruct (afterDetect_fields (closure_plates p) (continuation p o)
                (setInflight rest w)) as (_ & _ & _ & _ & _ & ->).
    split; [exact Hrest|].
    now apply afterDetect_shown.
  - unfold fireTimeout. destruct (nth_error _ _); [|now apply Hsame].
    destruct (_ <=? _); [|now apply Hsame].
    split; [exact Hc|]. split; [simpl; congruence | exact Hl].
  - unfold addPlate. destruct (_ <? _)%nat; [now apply Hsame|].
    destruct (contains _ _); now apply Hsame.
Qed.

Lemma run_tokensOK (evs : list Event) : tokensOK (run initial evs).
Proof.
  assert (H : forall w, tokensOK w -> tokensOK (run w evs)).
  { induction evs as [|e evs IH]; intros w Hw; simpl; trivial.
    apply IH. now apply step_tokensOK. }
  apply H.
  split; [constructor|]. split; [constructor|]. split; [|constructor].
  simpl. congruence.
Qed.

(** What the screen shows is always a proper token: after any events,
    AlertState, when it holds a token, holds one of [[A-Z0-9]] characters
    that is at least 4 long, so never the empty string; and every number in
    the session log holds only [[A-Z0-9]] characters. *)
Theorem shown_tokens (evs : list Event) :
  (forall tok, detectedRecently (run initial evs) = Some tok ->
     forallb is_AZ09 tok = true /\ (4 <= List.length tok)%nat) /\
  Forall (fun e => forallb is_AZ09 (log_number e) = true)
    (sessionLog (run initial evs)).
Proof.
  destruct (run_tokensOK evs) as (_ & _ & Hd & Hl).
  split; [exact Hd | exact Hl].
Qed.

Lemma run_tokensOK_from (evs : list Event) (w : World) :
  tokensOK w -> tokensOK (run w evs).
Proof.
  revert w. induction evs as [|e evs IH]; intros w Hw; simpl; trivial.
  apply IH. now apply step_tokensOK.
Qed.

(** The overlay never hides an alert: from a world whose store, captured
    stores, AlertState and log hold proper tokens only, as the world of the
    empty store does, after any events the overlay is rendered exactly when
    the mode is FLASH and AlertState holds a token. *)
Theorem overlay_shows_alert (w : World) (evs : list Event) :
  tokensOK w ->
  (overlayShown (run w evs) = true <->
   mode (run w evs) = FLASH /\ detectedRecently (run w evs) <> None) /\
  (overlayShown (run initial evs) = true <->
   mode (run initial evs) = FLASH /\ detectedRecently (run initial evs) <> None).
Proof.
  assert (H : forall w0, tokensOK w0 ->
            (overlayShown (run w0 evs) = true <->
             mode (run w0 evs) = FLASH /\ detectedRecently (run w0 evs) <> None)).
  { intros w0 Hw0.
    destruct (run_tokensOK_from evs w0 Hw0) as (_ & _ & Hd & _).
    unfold overlayShown.
    destruct (mode (run w0 evs)); simpl;
      [split; [discriminate | intros [? _]; discriminate]|].
    destruct (detectedRecently (run w0 evs)) as [[|c tok]|].
    - destruct (Hd [] eq_refl) as [_ Hlen]. simpl in Hlen. lia.
    - split; [intros _; split; [reflexivity | discriminate] | reflexivity].
    - split; [discriminate | intros [_ H]; congruence]. }
  intros Hw. split; [now apply H|].
  apply H. split; [constructor|]. split; [constructor|]. split; [|constructor].
  simpl. congruence.
Qed.

(** ** The camera *)

(** Acquiring and releasing the camera: a stream granted while the video
    element is mounted is kept, and [stopCamera] then stops exactly its
    tracks and forgets it, whatever stream was kept before; a second
    [stopCamera] does nothing; a stream granted while the video element is
    not mounted is not kept; and a refusal keeps the camera as it was and
    tells the user, with one console error and one alert. *)
Theorem camera_release (c : Camera) (w : World) (stream : MediaStream) :
  (videoElement c <> None ->
   stopCamera (fst (afterGetUserMedia (Granted stream) c w)) =
   mkCamera (Some (Some stream)) None (stoppedTracks c ++ getTracks stream)) /\
  stopCamera (stopCamera c) = stopCamera c /\
  streamRef (stopCamera c) = None /\
  (videoElement c = None -> afterGetUserMedia (Granted stream) c w = (c, w)) /\
  afterGetUserMedia Denied c w =
  (c, mkWorld (plates w) (mode w) (newPlate w) (isProcessing w) (detectedRecently w)
        (sessionLog w) (clock w) (timeouts w) (inflight w)
        (trace w ++ [ConsoleError; Alert "Erreur Caméra. Vérifiez les permissions."])).
Proof.
  split; [|split; [|split; [|split]]].
  - intros Hv. unfold afterGetUserMedia.
    destruct (videoElement c); [reflexivity | congruence].
  - unfold stopCamera. destruct (streamRef c) eqn:E; simpl; [reflexivity|].
    now rewrite E.
  - unfold stopCamera. destruct (streamRef c) eqn:E; [reflexivity | exact E].
  - intros Hv. unfold afterGetUserMedia. now rewrite Hv.
  - unfold afterGetUserMedia, emit. simpl. now rewrite <- app_assoc.
Qed.

End App.

(** ** The stand-in parser *)

Lemma isPlainChar_not_quote (c : N) : isPlainChar c = true -> (c =? 34) = false.
Proof.
  unfold isPlainChar. intros H. apply negb_true_iff in H.
  apply orb_false_iff in H as [H _]. now apply orb_false_iff in H as [_ H].
Qed.

Lemma readQuotedBody_plain (acc s rest : jsstring) :
  forallb isPlainChar s = true ->
  readQuotedBody acc (s ++ 34 :: rest) = Some (rev acc ++ s, rest).
Proof.
  revert acc. induction s as [|c s IH]; intros acc H; simpl.
  - now rewrite app_nil_r.
  - apply andb_true_iff in H as [Hc Hs].
    rewrite (isPlainChar_not_quote c Hc), Hc, IH by exact Hs.
    simpl. now rewrite <- app_assoc.
Qed.

Lemma readQuoted_quoted (s rest : jsstring) :
  forallb isPlainChar s = true ->
  readQuoted (quoted s ++ rest) = Some (s, rest).
Proof.
  intros H. unfold quoted. simpl. rewrite <- app_assoc. simpl.
  now rewrite readQuotedBody_plain.
Qed.

Lemma readItems_joinQuoted (s : jsstring) (ss : list jsstring)
    (fuel : nat) (rest : jsstring) :
  forallb (forallb isPlainChar) (s :: ss) = true ->
  (List.length ss < fuel)%nat ->
  readItems fuel (joinQuoted (s :: ss) ++ 93 :: rest) =
  Some (map JString (s :: ss), rest).
Proof.
  revert s fuel. induction ss as [|s2 ss IH]; intros s fuel H Hfuel;
    (destruct fuel as [|fuel]; [simpl in Hfuel; lia|]);
    apply andb_true_iff in H as [Hs Hss].
  - cbn [joinQuoted readItems]. now rewrite readQuoted_quoted.
  - change (joinQuoted (s :: s2 :: ss))
      with (quoted s ++ [44] ++ joinQuoted (s2 :: ss)).
    cbn [readItems]. rewrite <- !app_assoc, readQuoted_quoted by exact Hs.
    cbn [app]. change (44 =? 93) with false. change (44 =? 44) with true. cbv iota.
    rewrite IH; [reflexivity | exact Hss | simpl in Hfuel; lia].
Qed.

Lemma length_joinQuoted (ss : list jsstring) :
  (List.length ss <= List.length (joinQuoted ss))%nat.
Proof.
  induction ss as [|s ss IH]; [simpl; lia|].
  destruct ss as [|s2 ss].
  - unfold joinQuoted, quoted. rewrite !length_app. simpl. lia.
  - change (joinQuoted (s :: s2 :: ss))
      with (quoted s ++ [44] ++ joinQuoted (s2 :: ss)).
    rewrite !length_app. cbn [List.length] in *. lia.
Qed.

(** The stand-in parser reads the JSON text of an answer back as
    [JSON.parse] does: an object whose [plates] is the array of the strings. *)
Lemma parse_platesJson (ss : list jsstring) :
  forallb (forallb isPlainChar) ss = true ->
  parse_plates_json (platesJson ss) =
  Some (JObject [(js "plates", JArray (map JString ss))]).
Proof.
  intros H. unfold parse_plates_json, platesJson.
  assert (Hpre : forall pre s, stripPrefix pre (pre ++ s) = Some s).
  { induction pre as [|c pre IH]; intros s; simpl; [reflexivity|].
    now rewrite N.eqb_refl. }
  replace (js "{" ++ quoted (js "plates") ++ js ":[" ++ joinQuoted ss ++ js "]}")
    with ((js "{" ++ quoted (js "plates") ++ js ":[") ++ joinQuoted ss ++ js "]}")
    by (now rewrite <- !app_assoc).
  rewrite Hpre.
  destruct ss as [|s ss].
  - reflexivity.
  - assert (E : readArray (joinQuoted (s :: ss) ++ js "]}") =
                Some (map JString (s :: ss), js "}")).
    { change (js "]}") with (93 :: js "}").
      unfold readArray.
      destruct (joinQuoted (s :: ss) ++ 93 :: js "}") as [|c r] eqn:Ej.
      - destruct ss; discriminate Ej.
      - assert (Hc : c = 34) by (destruct ss; simpl in Ej; congruence).
        subst c. change (34 =? 93) with false. cbv iota. rewrite <- Ej.
        apply readItems_joinQuoted; [exact H|].
        rewrite length_app.
        pose proof (length_joinQuoted (s :: ss)) as Hlen.
        cbn [List.length] in *. lia. }
    rewrite E. reflexivity.
Qed.

(** ** Runs on plain data *)

(** The model with the stand-ins for the platform. *)
Notation "'runPlain'" := (run ascii_only_upper parse_plates_json utc_time_of_day).

Lemma add_length_boundary_witness :
  contains (js "AB12") (plates initial) = false /\
  added (js "id-1") (js "AB12") (setNewPlate (js "ab-12") initial)
    (addPlate ascii_only_upper (js "id-1") (setNewPlate (js "ab-12") initial)).
Proof.
  split; [reflexivity|].
  exact (proj1 (add_length_boundary ascii_only_upper (js "id-1") initial eq_refl)).
Defined.

(** C1 as the specification words its first sentence fails: on the empty
    store add("ab-12") raises no ValidationError, it stores "AB12". *)
Lemma add_ab_12_accepted :
  plates (addPlate ascii_only_upper (js "id-1") (setNewPlate (js "ab-12") initial)) =
  [mkPlate (js "id-1") (js "AB12") 0] /\
  ~ validationError (setNewPlate (js "ab-12") initial)
      (addPlate ascii_only_upper (js "id-1") (setNewPlate (js "ab-12") initial)).
Proof.
  split; [reflexivity|].
  intros [msg H]. apply (f_equal plates) in H. discriminate H.
Qed.

Lemma add_duplicate_rejected_witness :
  contains (normalizePlate ascii_only_upper (js "ab-123-aa")) watched = true /\
  validationError (setNewPlate (js "ab-123-aa") capturing)
    (addPlate ascii_only_upper (js "id-3") (setNewPlate (js "ab-123-aa") capturing)) /\
  plates (addPlate ascii_only_upper (js "id-3") (setNewPlate (js "ab-123-aa") capturing)) =
  watched.
Proof.
  split; [reflexivity|].
  exact (add_duplicate_rejected ascii_only_upper (js "id-3")
           (setNewPlate (js "ab-123-aa") capturing) eq_refl).
Defined.

Lemma watched_unique : uniqueNumbers capturing.
Proof.
  unfold uniqueNumbers. simpl.
  constructor; [|constructor; [|constructor]]; simpl; intuition discriminate.
Defined.

Lemma remove_then_contains_witness :
  uniqueNumbers capturing /\
  contains (js "AB123AA") (plates (removePlate (js "id-1") capturing)) = false /\
  removePlate (js "id-9") capturing = capturing.
Proof.
  split; [exact watched_unique|].
  destruct (remove_then_contains ascii_only_upper parse_plates_json utc_time_of_day)
    as (_ & Hrm & Hnop).
  split.
  - apply (Hrm capturing watched_unique (mkPlate (js "id-1") (js "AB123AA") 0)).
    simpl. auto.
  - apply Hnop. simpl. intros p [<- | [<- | []]]; discriminate.
Defined.

Lemma short_payload_no_call_witness :
  (List.length (js "abc") < 50)%nat /\
  detectPlatesFromImage parse_plates_json (Some (js "abc")) = Resolved ([], []).
Proof.
  split; [simpl; lia|].
  refine (proj1 (short_payload_no_call ascii_only_upper parse_plates_json
                   utc_time_of_day (js "abc") _)).
  simpl; lia.
Defined.

Lemma detector_failure_swallowed_witness :
  inflight (runPlain capturing [Tick (frameWith payload)]) =
    [mkInflight watched (afterGenerateContent parse_plates_json)] /\
  tryGenerateContent parse_plates_json Rejected = Throw /\
  plates (runPlain capturing [Tick (frameWith payload); Settle Rejected]) = watched /\
  sessionLog (runPlain capturing [Tick (frameWith payload); Settle Rejected]) = [].
Proof.
  split; [reflexivity|]. split; [reflexivity|].
  destruct (detector_failure_swallowed ascii_only_upper parse_plates_json
              utc_time_of_day (runPlain capturing [Tick (frameWith payload)])
              watched [] Rejected eq_refl eq_refl) as (_ & _ & Hp & Hl & _).
  split; [exact Hp | exact Hl].
Defined.

Lemma alert_window_witness :
  contains (normalizePlate ascii_only_upper (js "ab-123-aa")) watched = true /\
  detectedRecently
    (onDetected ascii_only_upper utc_time_of_day watched (js "ab-123-aa") capturing) =
  Some (js "AB123AA") /\
  timeouts
    (onDetected ascii_only_upper utc_time_of_day watched (js "ab-123-aa") capturing) =
  [mkTimeout 0 5000].
Proof.
  split; [reflexivity|].
  destruct (alert_window ascii_only_upper parse_plates_json utc_time_of_day
              watched (js "ab-123-aa") capturing eq_refl) as (Hd & Ht & _).
  split; [exact Hd | exact Ht].
Defined.

(** C3 as the specification words it fails: the second match, 3 seconds
    after the first, writes "CD456EF"; 2 seconds later the clear of the
    first match is due and empties AlertState, 3 seconds before the window
    of the newer token would end. *)
Lemma window_not_reset :
  detectedRecently (runPlain capturing twoMatches) = Some (js "CD456EF") /\
  clock (runPlain capturing twoMatches) = 3000 /\
  detectedRecently
    (runPlain capturing (twoMatches ++ [Elapse 2000; TimeoutFires 0])) = None /\
  ~ windowReset ascii_only_upper parse_plates_json utc_time_of_day
      (runPlain capturing twoMatches) (js "CD456EF").
Proof.
  split; [reflexivity|]. split; [reflexivity|]. split; [reflexivity|].
  intros H.
  specialize (H [Elapse 2000; TimeoutFires 0] eq_refl eq_refl).
  discriminate H.
Qed.

Lemma late_result_applied_witness :
  inflight (runPlain capturing [Tick (frameWith payload)]) =
    [mkInflight watched (afterGenerateContent parse_plates_json)] /\
  afterGenerateContent parse_plates_json (Response (Some answerAB)) =
    ([], [JString (js "AB-123-AA")]) /\
  contains (normalizePlate ascii_only_upper (js "AB-123-AA")) watched = true /\
  detectedRecently
    (runPlain capturing
       [Tick (frameWith payload); SwitchMode LIST;
        Settle (Response (Some answerAB))]) =
  Some (js "AB123AA").
Proof.
  split; [reflexivity|]. split; [reflexivity|]. split; [reflexivity|].
  destruct (late_result_applied ascii_only_upper parse_plates_json utc_time_of_day
              (runPlain capturing [Tick (frameWith payload)]) LIST
              (Response (Some answerAB))) as [_ H].
  exact (proj1 (proj2 (proj2
           (H watched (afterGenerateContent parse_plates_json) [] (js "AB-123-AA")
              eq_refl eq_refl eq_refl)))).
Defined.

(** C4 as the specification words it fails: the call went out in FLASH
    mode, the user left for the list, and the result that arrives then is
    logged, written to AlertState and played. *)
Lemma late_result_not_discarded :
  mode (runPlain capturing leftWhilePending) = LIST /\
  sessionLog (runPlain capturing leftWhilePending) = [] /\
  sessionLog
    (runPlain capturing (leftWhilePending ++ [Settle (Response (Some answerAB))])) =
  [mkLogEntry (js "AB123AA") (js "00:00:00") true] /\
  detectedRecently
    (runPlain capturing (leftWhilePending ++ [Settle (Response (Some answerAB))])) =
  Some (js "AB123AA") /\
  ~ lateResultDiscarded ascii_only_upper parse_plates_json utc_time_of_day
      (runPlain capturing leftWhilePending) (Response (Some answerAB)).
Proof.
  split; [reflexivity|]. split; [reflexivity|]. split; [reflexivity|].
  split; [reflexivity|].
  intros H. destruct H as (Hlog & _); [discriminate|]. discriminate Hlog.
Qed.

Lemma session_log_capped_witness :
  List.length fifteen = 15%nat /\
  map log_number
    (sessionLog
       (afterDetect ascii_only_upper utc_time_of_day watched
          ([], map JString fifteen) capturing)) =
  rev (skipn 5 fifteen).
Proof.
  split; [reflexivity|].
  destruct (session_log_capped ascii_only_upper parse_plates_json utc_time_of_day)
    as (_ & _ & H).
  destruct (H watched [] fifteen capturing eq_refl) as [E _].
  rewrite E. reflexivity.
Defined.

Lemma normalizePlate_ascii_witness :
  isAscii (js "ab-123") = true /\
  normalizePlate ascii_only_upper (js "ab-123" ++ js " aa") =
  normalizePlate ascii_only_upper (js "ab-123") ++
  normalizePlate ascii_only_upper (js " aa").
Proof.
  split; [reflexivity|].
  exact (proj2 (normalizePlate_ascii ascii_only_upper (js "ab-123") (js " aa") eq_refl)).
Defined.

Lemma add_then_contains_witness :
  (4 <= List.length (normalizePlate ascii_only_upper (js "gh-789-ij")))%nat /\
  contains (js "GH789IJ")
    (plates (addPlate ascii_only_upper (js "id-3")
               (setNewPlate (js "gh-789-ij") capturing))) = true.
Proof.
  assert (H : (4 <= List.length (normalizePlate ascii_only_upper (js "gh-789-ij")))%nat)
    by (vm_compute; lia).
  split; [exact H|].
  exact (add_then_contains ascii_only_upper (js "id-3")
           (setNewPlate (js "gh-789-ij") capturing) H).
Defined.

Lemma add_twice_rejected_witness :
  normalizePlate ascii_only_upper (js "gh-789-ij") =
  normalizePlate ascii_only_upper (js "GH 789 IJ") /\
  plates
    (addPlate ascii_only_upper (js "id-4")
       (setNewPlate (js "GH 789 IJ")
          (addPlate ascii_only_upper (js "id-3")
             (setNewPlate (js "gh-789-ij") initial)))) =
  [mkPlate (js "id-3") (js "GH789IJ") 0].
Proof.
  split; [reflexivity|].
  rewrite (proj2 (add_twice_rejected ascii_only_upper (js "id-3") (js "id-4")
                    (js "gh-789-ij") (js "GH 789 IJ") initial eq_refl)).
  reflexivity.
Defined.

Lemma add_then_remove_witness :
  (forall p, In p (plates (setNewPlate (js "gh789ij") capturing)) -> id p <> js "id-3") /\
  plates (removePlate (js "id-3")
            (addPlate ascii_only_upper (js "id-3")
               (setNewPlate (js "gh789ij") capturing))) = watched.
Proof.
  assert (H : forall p, In p (plates (setNewPlate (js "gh789ij") capturing)) ->
                        id p <> js "id-3").
  { simpl. intros p [<- | [<- | []]]; discriminate. }
  split; [exact H|].
  exact (add_then_remove ascii_only_upper (js "id-3")
           (setNewPlate (js "gh789ij") capturing) H).
Defined.

Lemma remove_while_pending_witness :
  contains (js "AB123AA")
    (plates (runPlain capturing [Tick (frameWith payload); ClickRemove (js "id-1")])) =
  false /\
  detectedRecently
    (runPlain capturing
       [Tick (frameWith payload); ClickRemove (js "id-1");
        Settle (Response (Some answerAB))]) =
  Some (js "AB123AA").
Proof.
  split; [reflexivity|].
  destruct (remove_while_pending ascii_only_upper parse_plates_json utc_time_of_day
              (runPlain capturing [Tick (frameWith payload)]) (js "id-1")
              (Response (Some answerAB))) as [_ H].
  exact (H watched (afterGenerateContent parse_plates_json) [] (js "AB-123-AA")
           eq_refl eq_refl eq_refl).
Defined.

Lemma malformed_element_witness :
  isString JNumber = false /\
  detectedRecently
    (afterDetect ascii_only_upper utc_time_of_day watched
       ([], map JString [js "AB-123-AA"] ++ JNumber :: [JString (js "cd456ef")])
       capturing) =
  Some (js "AB123AA").
Proof.
  split; [reflexivity|].
  rewrite (malformed_element ascii_only_upper utc_time_of_day watched []
             [js "AB-123-AA"] JNumber [JString (js "cd456ef")] capturing eq_refl).
  reflexivity.
Defined.

Lemma settle_resumes_witness :
  inflight (runPlain capturing [Tick (frameWith payload)]) =
    [mkInflight watched (afterGenerateContent parse_plates_json)] /\
  isProcessing
    (runPlain capturing [Tick (frameWith payload); Settle (Response None)]) = false.
Proof.
  split; [reflexivity|].
  exact (proj1 (settle_resumes ascii_only_upper parse_plates_json utc_time_of_day
                  (runPlain capturing [Tick (frameWith payload)])
                  (mkInflight watched (afterGenerateContent parse_plates_json)) []
                  (Response None) eq_refl)).
Defined.

Lemma capturing_tokensOK : tokensOK capturing.
Proof.
  split; [|split; [|split]].
  - repeat constructor.
  - constructor.
  - intros tok H. discriminate H.
  - constructor.
Defined.

Lemma overlay_shows_alert_witness :
  tokensOK capturing /\
  overlayShown
    (runPlain capturing [Tick (frameWith payload); Settle (Response (Some answerAB))]) =
  true.
Proof.
  split; [exact capturing_tokensOK|].
  apply (proj1 (overlay_shows_alert ascii_only_upper parse_plates_json utc_time_of_day
                  capturing
                  [Tick (frameWith payload); Settle (Response (Some answerAB))]
                  capturing_tokensOK)).
  split; [reflexivity | discriminate].
Defined.
